(** * fit_to_gpx: conversion of a FIT activity file to a GPX track

    A shallow embedding of [fit_to_gpx.py].  The program reads the "record"
    messages of a FIT container, builds one [Point] per message whose fields
    fit the dataclass, puts the points in a pandas table, converts the
    timestamp and the semicircle coordinates, and writes the rows that have a
    position and a time as the points of a one-track, one-segment GPX
    document.

    Python objects that are mutated or passed by reference (the table, the
    GPX document, its track and its segment) live in a heap; the output file
    and the log are part of the same world, which every function threads
    through an error-and-state monad. *)

From Stdlib Require Import ZArith Floats QArith Qpower Qfield Lia.
From stdpp Require Import base option list strings gmap.

Local Open Scope Z_scope.

(** ** Python values and exceptions *)

(** A date-time, as pandas stores it: nanoseconds since the epoch. *)
Definition datetime : Type := Z.

(** The values a FIT field, a dataclass attribute or a table cell can hold.
    [VNone] stands for every null of the program: [None], and pandas' [NaN]
    and [NaT] where a column has a missing entry. *)
Inductive value : Type :=
  | VNone
  | VInt (n : Z)
  | VFloat (x : float)
  | VStr (s : string)
  | VDatetime (t : datetime).

(** The exceptions of the program, all of them subclasses of [Exception];
    [StopIteration] is not among them, it is the end of a stream below.
    A [KeyError] carries the labels that were not found. *)
Inductive exn : Type :=
  | TypeError
  | ValueError
  | KeyError (keys : list string)
  | AttributeError
  | OSError
  | FitParseError.

Inductive result (A : Type) : Type :=
  | Ok (a : A)
  | Err (e : exn).
Arguments Ok {A} a.
Arguments Err {A} e.

(** ** The dataclass [Point] *)

Record Point : Type := mkPoint {
  cadence : value;
  distance : value;
  enhanced_speed : value;
  heart_rate : value;
  position_lat : value;
  position_long : value;
  speed : value;
  timestamp : value;
  unknown_88 : value
}.

Definition Point_fields : list string :=
  ["cadence"; "distance"; "enhanced_speed"; "heart_rate"; "position_lat";
   "position_long"; "speed"; "timestamp"; "unknown_88"]%string.

(** The call of [Point] with a dictionary as keyword arguments.  The
    generated [__init__] has the nine fields as parameters, none with a
    default: a missing name is a [TypeError], a name that is not a parameter
    is a [TypeError]; the values are stored as they come, the annotations
    are not checked. *)
Definition Point_init (kwargs : gmap string value) : result Point :=
  match
    (c ← kwargs !! "cadence"%string;
     d ← kwargs !! "distance"%string;
     es ← kwargs !! "enhanced_speed"%string;
     hr ← kwargs !! "heart_rate"%string;
     la ← kwargs !! "position_lat"%string;
     lo ← kwargs !! "position_long"%string;
     sp ← kwargs !! "speed"%string;
     ts ← kwargs !! "timestamp"%string;
     u ← kwargs !! "unknown_88"%string;
     Some (mkPoint c d es hr la lo sp ts u))
  with
  | None => Err TypeError
  | Some p =>
      if decide (dom kwargs ⊆ list_to_set Point_fields) then Ok p
      else Err TypeError
  end.

(** [dataclasses.asdict], which pandas applies to each element of a list of
    dataclass instances. *)
Definition asdict (p : Point) : gmap string value :=
  <["cadence"%string := cadence p]>
  (<["distance"%string := distance p]>
  (<["enhanced_speed"%string := enhanced_speed p]>
  (<["heart_rate"%string := heart_rate p]>
  (<["position_lat"%string := position_lat p]>
  (<["position_long"%string := position_long p]>
  (<["speed"%string := speed p]>
  (<["timestamp"%string := timestamp p]>
  (<["unknown_88"%string := unknown_88 p]> ∅)))))))).

(** ** The record stream of a FIT file *)

(** A decoded "record" message; [get_values] is its dictionary from field
    name to value. *)
Record message : Type := mkMessage { get_values : gmap string value }.

(** What one call of [next(records)] does: it hands out a message or raises.
    A stream is the sequence of these outcomes, one per call; when it is used
    up, [next] raises [StopIteration]. *)
Inductive event : Type :=
  | Yield (record : message)
  | Raise (e : exn).

(** [fitfile.get_messages("record")] is a generator.  For a container whose
    records decode to [container] (a message, or the exception that a
    corrupt record raises in the decoder), the stream it gives ends with
    the first exception: a generator that has raised is finished, and
    every later [next] raises [StopIteration]. *)
Fixpoint get_messages (container : list event) : list event :=
  match container with
  | [] => []
  | Yield record :: container' => Yield record :: get_messages container'
  | Raise e :: _ => [Raise e]
  end.

(** ** pandas tables *)

(** A table: the column labels in order, and the rows, each a dictionary
    from column label to cell. *)
Record DataFrame : Type := mkDataFrame {
  columns : list string;
  rows : list (gmap string value)
}.

(** [pd.DataFrame(data)] for a list of dataclass instances.  pandas looks at
    the first element to learn that the list holds dataclasses and takes the
    columns from their fields; an empty list gives a table with no row and
    no column.  (The cells are kept here as the values of the points;
    pandas stores a column of integers that holds a null as the floats of
    the same numbers, so the storage type of a raw column is not to be read
    off this table.) *)
Definition pd_DataFrame (data : list Point) : DataFrame :=
  match data with
  | [] => mkDataFrame [] []
  | _ :: _ => mkDataFrame Point_fields (asdict <$> data)
  end.

Definition cell (row : gmap string value) (key : string) : value :=
  default VNone (row !! key).

(** [df[key]]: the column, or [KeyError] when the table has no such label. *)
Definition getitem (df : DataFrame) (key : string) : result (list value) :=
  if decide (key ∈ columns df) then Ok ((λ r, cell r key) <$> rows df)
  else Err (KeyError [key]).

(** [df[key] = series], for a series over the index of [df]: the column is
    replaced, or added as the last one. *)
Definition setitem (df : DataFrame) (key : string) (series : list value)
  : DataFrame :=
  mkDataFrame
    (if decide (key ∈ columns df) then columns df else columns df ++ [key])
    (zip_with (λ r v, <[key := v]> r) (rows df) series).

(** pandas' null test: [None], [NaT] and a float that is not a number. *)
Definition isna (v : value) : bool :=
  match v with
  | VNone => true
  | VFloat x => PrimFloat.is_nan x
  | _ => false
  end.

Definition notna_in (subset : list string) (row : gmap string value) : Prop :=
  Forall (λ key, isna (cell row key) = false) subset.

#[global] Instance notna_in_dec subset row : Decision (notna_in subset row).
Proof. unfold notna_in. apply _. Defined.

(** [df.dropna(axis=0, subset=subset)]: a new table with the rows that have
    no null under the labels of [subset]; [KeyError] with the labels that
    are not columns, when there are some. *)
Definition dropna (df : DataFrame) (subset : list string)
  : result DataFrame :=
  match filter (λ key, key ∉ columns df) subset with
  | [] => Ok (mkDataFrame (columns df) (filter (notna_in subset) (rows df)))
  | missing => Err (KeyError missing)
  end.

(** ** Coordinates *)

(** An integer as a float: the binary64 nearest to it, ties to even, as
    Python's [float(n)] and the conversion of a 64-bit column give it; an
    integer below [2^53] in magnitude is converted exactly.  (An integer
    beyond the largest float gives an infinity here, where Python raises
    [OverflowError]; the positions of a FIT file are 32-bit integers.) *)
Definition float_of_Z (n : Z) : float :=
  SF2Prim (binary_normalize prec emax n 0 false).

(** [val / ((2**32) / 360)] for an integer [val]; both divisions are
    Python's true division, in binary64. *)
Definition semicircle_to_degrees (val : Z) : float :=
  PrimFloat.div (float_of_Z val)
    (PrimFloat.div (float_of_Z (2 ^ 32)) (float_of_Z 360)).

(** The same expression on one cell of a pandas series: a null stays null,
    a number is divided, anything else has no division by a float. *)
Definition semicircle_to_degrees_cell (v : value) : result value :=
  match v with
  | VNone => Ok VNone
  | VInt n => Ok (VFloat (semicircle_to_degrees n))
  | VFloat x =>
      Ok (VFloat (PrimFloat.div x
                    (PrimFloat.div (float_of_Z (2 ^ 32)) (float_of_Z 360))))
  | VStr _ | VDatetime _ => Err TypeError
  end.

Fixpoint semicircle_to_degrees_series (col : list value)
  : result (list value) :=
  match col with
  | [] => Ok []
  | v :: col' =>
      match semicircle_to_degrees_cell v with
      | Err e => Err e
      | Ok d =>
          match semicircle_to_degrees_series col' with
          | Err e => Err e
          | Ok ds => Ok (d :: ds)
          end
      end
  end.

(** ** The GPX document *)

Record GPXTrackPoint : Type := mkGPXTrackPoint {
  latitude : value;
  longitude : value;
  time : datetime
}.

(** A document as it is read off the objects: its tracks, each the list of
    its segments, each the list of its points. *)
Record GPXTrackSegment : Type := mkSegment { points : list GPXTrackPoint }.
Record GPXTrack : Type := mkTrack { segments : list GPXTrackSegment }.
Record GPX : Type := mkGPX { tracks : list GPXTrack }.

(** ** The world: heap, files, log *)

Definition loc : Type := positive.

(** The objects the program shares by reference.  A GPX object holds
    references to its tracks and a track to its segments, so that an append
    to a segment shows in the document that already holds it. *)
Inductive object : Type :=
  | ODataFrame (df : DataFrame)
  | OGPX (track_refs : list loc)
  | OGPXTrack (segment_refs : list loc)
  | OGPXTrackSegment (pts : list GPXTrackPoint).

Record world : Type := mkWorld {
  heap : gmap loc object;
  files : gmap string string;
  readonly : gset string;
  log : list string
}.

Definition set_heap (f : gmap loc object → gmap loc object) (w : world)
  : world :=
  mkWorld (f (heap w)) (files w) (readonly w) (log w).

(** Computations: they read and change the world and end in a value or in
    an exception. *)
Definition M (A : Type) : Type := world → result A * world.

Definition ret {A} (a : A) : M A := λ w, (Ok a, w).

Definition bind {A B} (m : M A) (f : A → M B) : M B :=
  λ w, match m w with
       | (Ok a, w') => f a w'
       | (Err e, w') => (Err e, w')
       end.

Definition raise {A} (e : exn) : M A := λ w, (Err e, w).

Definition lift {A} (r : result A) : M A := λ w, (r, w).

Declare Scope py_scope.
Delimit Scope py_scope with py.
Notation "'do' x <- m ; k" := (bind m (λ x, k))
  (at level 10, x name, m at level 100, k at level 200) : py_scope.
Notation "'do_' m ; k" := (bind m (λ _, k))
  (at level 10, m at level 100, k at level 200) : py_scope.
Local Open Scope py_scope.

Definition alloc (o : object) : M loc :=
  λ w, let l := fresh (dom (heap w)) in (Ok l, set_heap (insert l o) w).

Definition load (l : loc) : M object :=
  λ w, match heap w !! l with
       | Some o => (Ok o, w)
       | None => (Err AttributeError, w)
       end.

Definition store (l : loc) (o : object) : M unit :=
  λ w, (Ok tt, set_heap (insert l o) w).

(** [_logger.info(msg)] *)
Definition logger_info (msg : string) : M unit :=
  λ w, (Ok tt, mkWorld (heap w) (files w) (readonly w) (log w ++ [msg])).

(** A statement for each element of a list, in order; an exception ends
    the loop. *)
Fixpoint for_each {A} (l : list A) (body : A → M unit) : M unit :=
  match l with
  | [] => ret tt
  | x :: l' => do_ body x; for_each l' body
  end.

(** Table objects, through their reference. *)
Definition load_df (df : loc) : M DataFrame :=
  do o <- load df;
  match o with
  | ODataFrame d => ret d
  | _ => raise AttributeError
  end.

Definition df_getitem (df : loc) (key : string) : M (list value) :=
  do d <- load_df df; lift (getitem d key).

Definition df_setitem (df : loc) (key : string) (series : list value)
  : M unit :=
  do d <- load_df df; store df (ODataFrame (setitem d key series)).

(** [df.copy()] and [df.dropna(...)] both hand out a new table object. *)
Definition df_copy (df : loc) : M loc :=
  do d <- load_df df; alloc (ODataFrame d).

Definition df_dropna (df : loc) (subset : list string) : M loc :=
  do d <- load_df df;
  do d' <- lift (dropna d subset);
  alloc (ODataFrame d').

Definition iterrows (df : loc) : M (list (gmap string value)) :=
  do d <- load_df df; ret (rows d).

(** [row[key]] on a row of [iterrows]. *)
Definition row_getitem (row : gmap string value) (key : string) : M value :=
  match row !! key with
  | Some v => ret v
  | None => raise (KeyError [key])
  end.

(** GPX objects, through their reference. *)
Definition tracks_append (gpx track : loc) : M unit :=
  do o <- load gpx;
  match o with
  | OGPX ts => store gpx (OGPX (ts ++ [track]))
  | _ => raise AttributeError
  end.

Definition segments_append (track segment : loc) : M unit :=
  do o <- load track;
  match o with
  | OGPXTrack ss => store track (OGPXTrack (ss ++ [segment]))
  | _ => raise AttributeError
  end.

Definition points_append (segment : loc) (p : GPXTrackPoint) : M unit :=
  do o <- load segment;
  match o with
  | OGPXTrackSegment ps => store segment (OGPXTrackSegment (ps ++ [p]))
  | _ => raise AttributeError
  end.

(** The document a GPX object stands for, read through the references. *)
Definition segment_at (h : gmap loc object) (l : loc)
  : option GPXTrackSegment :=
  match h !! l with
  | Some (OGPXTrackSegment ps) => Some (mkSegment ps)
  | _ => None
  end.

Definition track_at (h : gmap loc object) (l : loc) : option GPXTrack :=
  match h !! l with
  | Some (OGPXTrack ss) => mkTrack <$> mapM (segment_at h) ss
  | _ => None
  end.

Definition document_at (h : gmap loc object) (l : loc) : option GPX :=
  match h !! l with
  | Some (OGPX ts) => mkGPX <$> mapM (track_at h) ts
  | _ => None
  end.

(** ** The program *)

Section Program.

(** The libraries the program calls and this development does not look
    into: fitparse's decoder, pandas' date parsing, and gpxpy's printer.
    - [fitparse_FitFile data] is what opening a file with content [data]
      gives: an exception, or the stream of "record" messages, as the
      outcomes of the calls of [next(records)].
    - [to_datetime v] is the date-time pandas reads in the cell [v], if
      it reads one ([pd.to_datetime] on one cell).
    - [pd_Timestamp v] is [pd.Timestamp(v)].
    - [parse_args] is the argparse parser of the two options. *)
Variable fitparse_FitFile : string → result (list event).
Variable to_datetime : value → option datetime.
Variable pd_Timestamp : value → result datetime.
Variable to_xml : GPX → string.
Variable parse_args : list string → result (option string * option string).

(** [fitparse.FitFile(fit_file)].  Without a path fitparse reads an empty
    buffer and raises its end-of-file error, one of its [FitParseError]s. *)
Definition FitFile (fit_file : option string) : M (list event) :=
  λ w, match fit_file with
       | None => (Err FitParseError, w)
       | Some path =>
           match files w !! path with
           | None => (Err OSError, w)
           | Some data => (fitparse_FitFile data, w)
           end
       end.

(** The loop of [read_fit_file], by the outcomes of [next(records)] that
    are still to come. *)
Fixpoint read_records (records : list event) (points : list Point)
  : M (list Point) :=
  match records with
  | [] =>
      (* StopIteration *)
      do_ logger_info "Read all records in FIT file."; ret points
  | Yield record :: records' =>
      match Point_init (get_values record) with
      | Ok p => read_records records' (points ++ [p])
      | Err _ =>
          do_ logger_info "Error in record, continuing";
          read_records records' points
      end
  | Raise _ :: records' =>
      do_ logger_info "Error in record, continuing";
      read_records records' points
  end.

Definition read_fit_file (fit_file : option string) : M (list Point) :=
  do records <- FitFile fit_file;
  read_records records [].

(** [pd.to_datetime(series, errors="coerce")], cell by cell. *)
Definition to_datetime_coerce (v : value) : value :=
  match to_datetime v with
  | Some t => VDatetime t
  | None => VNone
  end.

Definition points_to_pdf (points : list Point) : M loc :=
  do df <- alloc (ODataFrame (pd_DataFrame points));
  do ts <- df_getitem df "timestamp";
  do_ df_setitem df "timestamp" (to_datetime_coerce <$> ts);
  do lat <- df_getitem df "position_lat";
  do lat_deg <- lift (semicircle_to_degrees_series lat);
  do_ df_setitem df "latitude" lat_deg;
  do long <- df_getitem df "position_long";
  do long_deg <- lift (semicircle_to_degrees_series long);
  do_ df_setitem df "longitude" long_deg;
  ret df.

Definition required : list string :=
  ["latitude"; "longitude"; "timestamp"]%string.

Definition pdf_to_gpx (df : loc) : M loc :=
  do gpx <- alloc (OGPX []);
  do gpx_track <- alloc (OGPXTrack []);
  do_ tracks_append gpx gpx_track;
  do gpx_segment <- alloc (OGPXTrackSegment []);
  do_ segments_append gpx_track gpx_segment;
  do copy <- df_copy df;
  do df' <- df_dropna copy required;
  do table <- iterrows df';
  do_ for_each table (λ row,
        do lat <- row_getitem row "latitude";
        do long <- row_getitem row "longitude";
        do ts <- row_getitem row "timestamp";
        do t <- lift (pd_Timestamp ts);
        points_append gpx_segment (mkGPXTrackPoint lat long t));
  ret gpx.

(** [open(path, "w")] followed by one [write]: the file is created or
    emptied when it is opened. *)
Definition open_w (path : option string) : M string :=
  λ w, match path with
       | None => (Err TypeError, w)
       | Some p =>
           if decide (p ∈ readonly w) then (Err OSError, w)
           else (Ok p, mkWorld (heap w) (<[p := ""%string]> (files w))
                         (readonly w) (log w))
       end.

Definition write (f : string) (text : string) : M unit :=
  λ w, (Ok tt, mkWorld (heap w) (<[f := text]> (files w))
                 (readonly w) (log w)).

Definition gpx_to_xml (gpx : loc) : M string :=
  λ w, match document_at (heap w) gpx with
       | Some doc => (Ok (to_xml doc), w)
       | None => (Err AttributeError, w)
       end.

(** [setup_logging(logging.INFO)] configures the handler of the log; the
    lines that [_logger.info] adds are the ones kept in the world. *)
Definition setup_logging : M unit := ret tt.

Definition main (args : list string) : M unit :=
  do ns <- lift (parse_args args);
  do_ setup_logging;
  do points <- read_fit_file (fst ns);
  do df <- points_to_pdf points;
  do gpx <- pdf_to_gpx df;
  do f <- open_w (snd ns);
  do xml <- gpx_to_xml gpx;
  write f xml.

End Program.

(** * Vocabulary of the properties *)

(** ** Floats as numbers *)

(** The divisor [2**32 / 360], as binary64 has it. *)
Definition divisor_mantissa : positive := 6405119470038039.
Definition divisor_SF : spec_float := S754_finite false divisor_mantissa (-29).

(** The rational number a float stands for. *)
Definition SF2Q (x : spec_float) : option Q :=
  match x with
  | S754_zero _ => Some 0%Q
  | S754_finite s m e =>
      Some (inject_Z (if s then Zneg m else Zpos m) * 2 ^ e)%Q
  | S754_infinity _ | S754_nan => None
  end.

Definition float_to_Q (x : float) : option Q := SF2Q (Prim2SF x).

(** ** Records of the stream *)

(** The point a stream outcome contributes, if any. *)
Definition accepted (ev : event) : option Point :=
  match ev with
  | Yield record =>
      match Point_init (get_values record) with
      | Ok p => Some p
      | Err _ => None
      end
  | Raise _ => None
  end.

(** A well-formed record is a message that the constructor takes. *)
Definition well_formed (ev : event) : Prop := is_Some (accepted ev).

#[global] Instance well_formed_dec ev : Decision (well_formed ev).
Proof. unfold well_formed. apply _. Defined.

(** A well-formed record by its content alone, whatever the constructor
    does with it: a message whose dictionary has the nine field names and
    no other. *)
Definition has_point_fields (ev : event) : Prop :=
  match ev with
  | Yield record => dom (get_values record) = list_to_set Point_fields
  | Raise _ => False
  end.

#[global] Instance has_point_fields_dec ev : Decision (has_point_fields ev).
Proof. destruct ev; simpl; apply _. Defined.

(** One log line per outcome that gives no point, then the closing line. *)
Definition read_log (records : list event) : list string :=
  ((λ _, "Error in record, continuing"%string)
     <$> filter (λ ev, ¬ well_formed ev) records)
  ++ ["Read all records in FIT file."%string].

Definition add_log (lines : list string) (w : world) : world :=
  mkWorld (heap w) (files w) (readonly w) (log w ++ lines).

(** ** Outcomes of computations *)

(** [wp m w Q]: run from the world [w], the computation [m] ends in a
    result and a world that satisfy [Q]. *)
Definition wp {A} (m : M A) (w : world) (Q : result A → world → Prop)
  : Prop :=
  Q (m w).1 (m w).2.

(** ** Rows and points *)

(** A timestamp cell of a date-time column: a date-time or a null. *)
Definition typed_timestamp (row : gmap string value) : Prop :=
  match cell row "timestamp" with
  | VNone | VDatetime _ => True
  | _ => False
  end.

(** A normalized table has the three columns the serializer reads, and a
    timestamp column of date-times and nulls. *)
Definition normalized (d : DataFrame) : Prop :=
  required ⊆ columns d ∧ Forall typed_timestamp (rows d).

(** The rows that [dropna] keeps. *)
Definition survives (row : gmap string value) : Prop := notna_in required row.

(** The point of a row in the document, if it has one. *)
Definition output_point (row : gmap string value) : option GPXTrackPoint :=
  if decide (survives row) then
    match cell row "timestamp" with
    | VDatetime t =>
        Some (mkGPXTrackPoint (cell row "latitude") (cell row "longitude") t)
    | _ => None
    end
  else None.

(** What the serializer keeps true of the heap while it fills the segment:
    the document [gpx] has the one track [track], which has the one segment
    [segment], which holds [pts]; the table at [df] is [o]. *)
Record doc_inv (w0 w : world) (df gpx track segment : loc) (o : object)
    (pts : list GPXTrackPoint) : Prop := mkDocInv {
  inv_gpx : heap w !! gpx = Some (OGPX [track]);
  inv_track : heap w !! track = Some (OGPXTrack [segment]);
  inv_segment : heap w !! segment = Some (OGPXTrackSegment pts);
  inv_df : heap w !! df = Some o;
  inv_files : files w = files w0;
  inv_log : log w = log w0
}.

(** ** The normalized table *)

(** The cells that can be divided by a float: numbers and nulls. *)
Definition numeric (v : value) : Prop :=
  match v with
  | VNone | VInt _ | VFloat _ => True
  | VStr _ | VDatetime _ => False
  end.

(** The degrees in a cell of semicircles, for a cell that can be divided. *)
Definition degrees (v : value) : value :=
  match semicircle_to_degrees_cell v with
  | Ok d => d
  | Err _ => VNone
  end.

(** A column computed cell by cell from a column of the same table. *)
Definition assign (key src : string) (f : value → value) (d : DataFrame)
  : DataFrame :=
  setitem d key (f <$> ((λ r, cell r src) <$> rows d)).

(** Positions that are integers, floats or nulls, as the dataclass
    declares them. *)
Definition numeric_position (p : Point) : Prop :=
  numeric (position_lat p) ∧ numeric (position_long p).

Section NormalizedTable.

Variable to_datetime : value → option datetime.

(** The row of the normalized table for a row of the raw table. *)
Definition normalize (row : gmap string value) : gmap string value :=
  <["longitude"%string := degrees (cell row "position_long")]>
  (<["latitude"%string := degrees (cell row "position_lat")]>
  (<["timestamp"%string
      := to_datetime_coerce to_datetime (cell row "timestamp")]> row)).

Definition normalized_table (points : list Point) : DataFrame :=
  mkDataFrame (Point_fields ++ ["latitude"; "longitude"]%string)
    (normalize ∘ asdict <$> points).

(** The point that a Point Record gives in the document, if any. *)
Definition track_point (p : Point) : option GPXTrackPoint :=
  output_point (normalize (asdict p)).

End NormalizedTable.

(** ** What a call leaves alone, and the rows and points of FIT records *)

(** Every object of [w] is the same object in [w'], and the files, the
    paths that cannot be written and the log are the same. *)
Record extends (w w' : world) : Prop := mkExtends {
  ext_heap : ∀ l o, heap w !! l = Some o → heap w' !! l = Some o;
  ext_files : files w' = files w;
  ext_readonly : readonly w' = readonly w;
  ext_log : log w' = log w
}.

(** A position as the FIT profile has it: a signed 32-bit number of
    semicircles, or no value. *)
Definition fit_semicircles (v : value) : Prop :=
  match v with
  | VNone => True
  | VInt n => - 2 ^ 31 ≤ n < 2 ^ 31
  | _ => False
  end.

Definition fit_position (p : Point) : Prop :=
  fit_semicircles (position_lat p) ∧ fit_semicircles (position_long p).

(** The track point of a record, read off its three fields. *)
Definition gpx_point (to_datetime : value → option datetime) (p : Point)
  : option GPXTrackPoint :=
  match position_lat p, position_long p, to_datetime (timestamp p) with
  | VInt la, VInt lo, Some t =>
      Some (mkGPXTrackPoint (VFloat (semicircle_to_degrees la))
              (VFloat (semicircle_to_degrees lo)) t)
  | _, _, _ => None
  end.

(** The three cells that [points_to_pdf] computes in the row of a
    record. *)
Definition table_row (to_datetime : value → option datetime) (p : Point)
    (row : gmap string value) : Prop :=
  row !! "timestamp"%string
  = Some (to_datetime_coerce to_datetime (timestamp p))
  ∧ row !! "latitude"%string = Some (degrees (position_lat p))
  ∧ row !! "longitude"%string = Some (degrees (position_long p)).

(** Positions whose integers are of the signed 64-bit range, the integers
    that a column holds as machine numbers; the other values are not
    restricted. *)
Definition int64 (v : value) : Prop :=
  match v with
  | VInt n => - 2 ^ 63 ≤ n < 2 ^ 63
  | _ => True
  end.

Definition int64_position (p : Point) : Prop :=
  int64 (position_lat p) ∧ int64 (position_long p).

(** * A small ride

    A file of four stream outcomes: a record with a position and a time,
    a record with a field that [Point] does not have, a record whose
    timestamp is not a date, and a decoding error, which ends the stream.
    The library functions are the simplest that fit their descriptions. *)

Definition ride_point (lat long : Z) (ts : value) : Point :=
  mkPoint (VInt 82) (VFloat 1503.5) (VFloat 3.25) (VInt 141)
    (VInt lat) (VInt long) (VFloat 3.25) ts (VInt 300).

Definition record_A : Point :=
  ride_point 612553967 (-1193046) (VDatetime 1600000000000000000).

Definition record_C : Point :=
  ride_point 612553990 (-1193100) (VStr "yesterday").

Definition message_B : message :=
  mkMessage (<["altitude"%string := VFloat 12.5]> (asdict record_A)).

Definition ride_stream : list event :=
  [Yield (mkMessage (asdict record_A)); Yield message_B;
   Yield (mkMessage (asdict record_C)); Raise FitParseError].

Definition ride_fitparse (data : string) : result (list event) :=
  if decide (data = "ride"%string) then Ok ride_stream
  else if decide (data = ""%string) then Ok []
  else Err FitParseError.

Definition ride_to_datetime (v : value) : option datetime :=
  match v with
  | VDatetime t => Some t
  | _ => None
  end.

Definition ride_Timestamp (v : value) : result datetime :=
  match v with
  | VDatetime t => Ok t
  | _ => Err ValueError
  end.

Definition ride_to_xml (doc : GPX) : string := "<gpx/>".

Definition ride_parse_args (args : list string)
  : result (option string * option string) :=
  match args with
  | [fit; gpx] => Ok (Some fit, Some gpx)
  | _ => Err ValueError
  end.

Definition ride_world : world :=
  mkWorld ∅
    (<["ride.fit"%string := "ride"%string]>
       (<["empty.fit"%string := ""%string]>
          (<["broken.fit"%string := "no header"%string]> ∅)))
    ∅ [].

(** The normalized table of the two records that are accepted, stored at
    location 1. *)
Definition ride_table : DataFrame :=
  normalized_table ride_to_datetime [record_A; record_C].

Definition table_world : world :=
  mkWorld {[ 1%positive := ODataFrame ride_table ]} ∅ ∅ [].

(** A table as [pd.DataFrame] makes it of an empty list, at location 1. *)
Definition bare_world : world :=
  mkWorld {[ 1%positive := ODataFrame (pd_DataFrame []) ]} ∅ ∅ [].

(** A container with a corrupt record between two records that [Point]
    takes, and the stream that the generator gives for it. *)
Definition gap_container : list event :=
  [Yield (mkMessage (asdict record_A)); Raise FitParseError;
   Yield (mkMessage (asdict record_C))].

Definition gap_fitparse (data : string) : result (list event) :=
  Ok (get_messages gap_container).

(** A file of two outcomes, none of them a record that [Point] takes. *)
Definition corrupt_fitparse (data : string) : result (list event) :=
  Ok [Yield message_B; Raise FitParseError].

(** A command line with the input path only. *)
Definition fit_only_parse_args (args : list string)
  : result (option string * option string) :=
  match args with
  | [fit] => Ok (Some fit, None)
  | _ => Err ValueError
  end.

(** * Properties *)

(** ** Construction of a [Point] *)

Lemma dom_asdict p : dom (asdict p) = list_to_set Point_fields.
Proof.
  unfold asdict, Point_fields. rewrite !dom_insert_L, dom_empty_L. set_solver.
Qed.

Lemma asdict_lookup p :
  asdict p !! "cadence"%string = Some (cadence p) ∧
  asdict p !! "distance"%string = Some (distance p) ∧
  asdict p !! "enhanced_speed"%string = Some (enhanced_speed p) ∧
  asdict p !! "heart_rate"%string = Some (heart_rate p) ∧
  asdict p !! "position_lat"%string = Some (position_lat p) ∧
  asdict p !! "position_long"%string = Some (position_long p) ∧
  asdict p !! "speed"%string = Some (speed p) ∧
  asdict p !! "timestamp"%string = Some (timestamp p) ∧
  asdict p !! "unknown_88"%string = Some (unknown_88 p).
Proof. repeat split; reflexivity. Qed.

Lemma Point_init_asdict p : Point_init (asdict p) = Ok p.
Proof.
  unfold Point_init.
  destruct (asdict_lookup p) as (-> & -> & -> & -> & -> & -> & -> & -> & ->).
  simpl. rewrite decide_True by (by rewrite dom_asdict). by destruct p.
Qed.

Lemma lookup_not_field (kw : gmap string value) k :
  dom kw ⊆ list_to_set Point_fields → k ∉ Point_fields → kw !! k = None.
Proof.
  intros Hsub Hk. apply not_elem_of_dom. intros Hin. apply Hsub in Hin.
  by apply elem_of_list_to_set in Hin.
Qed.

(** The constructor succeeds on exactly the dictionaries that have the nine
    fields and nothing else, and the point it builds has the values of the
    dictionary. *)
Lemma Point_init_Ok kw p : Point_init kw = Ok p ↔ kw = asdict p.
Proof.
  split; [|intros ->; apply Point_init_asdict].
  unfold Point_init. intros H.
  destruct (kw !! "cadence"%string) as [c|] eqn:Hc; [|done].
  destruct (kw !! "distance"%string) as [d|] eqn:Hd; [|done].
  destruct (kw !! "enhanced_speed"%string) as [es|] eqn:Hes; [|done].
  destruct (kw !! "heart_rate"%string) as [hr|] eqn:Hhr; [|done].
  destruct (kw !! "position_lat"%string) as [la|] eqn:Hla; [|done].
  destruct (kw !! "position_long"%string) as [lo|] eqn:Hlo; [|done].
  destruct (kw !! "speed"%string) as [sp|] eqn:Hsp; [|done].
  destruct (kw !! "timestamp"%string) as [ts|] eqn:Hts; [|done].
  destruct (kw !! "unknown_88"%string) as [u|] eqn:Hu; [|done].
  simpl in H. case_decide as Hsub; [|done]. injection H as <-.
  apply map_eq. intros k.
  destruct (decide (k ∈ Point_fields)) as [Hk|Hk].
  - unfold Point_fields in Hk. rewrite !elem_of_cons in Hk.
    destruct Hk as [->|[->|[->|[->|[->|[->|[->|[->|[->|Hk]]]]]]]]];
      [by (etrans; [eassumption|])..|by apply elem_of_nil in Hk].
  - rewrite (lookup_not_field (asdict _) k) by (by rewrite ?dom_asdict).
    by apply lookup_not_field.
Qed.

Lemma Point_init_Err kw e : Point_init kw = Err e → e = TypeError.
Proof.
  unfold Point_init. destruct (_ ≫= _); [case_decide|]; congruence.
Qed.

Ltac field_name := by apply (bool_decide_unpack _).

(** A dictionary whose names are not exactly the nine fields is refused. *)
Lemma Point_init_names kw :
  (∃ p, Point_init kw = Ok p) ↔ dom kw = list_to_set Point_fields.
Proof.
  split.
  - intros [p ->%Point_init_Ok]. apply dom_asdict.
  - intros Hdom.
    assert (Hin : ∀ k, k ∈ Point_fields → is_Some (kw !! k)).
    { intros k Hk. apply elem_of_dom. rewrite Hdom.
      by apply elem_of_list_to_set. }
    unfold Point_init.
    destruct (Hin "cadence"%string) as [? ->]; [field_name|].
    destruct (Hin "distance"%string) as [? ->]; [field_name|].
    destruct (Hin "enhanced_speed"%string) as [? ->]; [field_name|].
    destruct (Hin "heart_rate"%string) as [? ->]; [field_name|].
    destruct (Hin "position_lat"%string) as [? ->]; [field_name|].
    destruct (Hin "position_long"%string) as [? ->]; [field_name|].
    destruct (Hin "speed"%string) as [? ->]; [field_name|].
    destruct (Hin "timestamp"%string) as [? ->]; [field_name|].
    destruct (Hin "unknown_88"%string) as [? ->]; [field_name|].
    simpl. rewrite decide_True by (by rewrite Hdom). eauto.
Qed.

(** ** binary64 arithmetic of the coordinate conversion *)

Lemma fexp_eq e : fexp prec emax e = Z.max (e - 53) (-1074).
Proof. reflexivity. Qed.

Lemma digits2_pos_bounds p :
  2 ^ (Zpos (digits2_pos p) - 1) ≤ Zpos p < 2 ^ Zpos (digits2_pos p).
Proof.
  induction p as [p IH|p IH|]; simpl digits2_pos.
  - rewrite Pos2Z.inj_succ.
    replace (Z.succ (Zpos (digits2_pos p)) - 1)
      with (Z.succ (Zpos (digits2_pos p) - 1)) by lia.
    rewrite !Z.pow_succ_r by lia. lia.
  - rewrite Pos2Z.inj_succ.
    replace (Z.succ (Zpos (digits2_pos p)) - 1)
      with (Z.succ (Zpos (digits2_pos p) - 1)) by lia.
    rewrite !Z.pow_succ_r by lia. lia.
  - simpl. lia.
Qed.

Lemma Zdigits2_unique (m k : Z) :
  2 ^ (k - 1) ≤ m < 2 ^ k → 0 < k → Zdigits2 m = k.
Proof.
  intros Hm Hk.
  assert (0 < m) by (pose proof (Z.pow_pos_nonneg 2 (k - 1)); lia).
  destruct m as [|p|p]; try lia. simpl.
  pose proof (digits2_pos_bounds p) as Hp.
  set (d := Zpos (digits2_pos p)) in *.
  destruct (Z.lt_trichotomy d k) as [Hlt|[Heq|Hgt]]; [|done|].
  - assert (2 ^ d ≤ 2 ^ (k - 1)) by (apply Z.pow_le_mono_r; lia). lia.
  - assert (2 ^ k ≤ 2 ^ (d - 1)) by (apply Z.pow_le_mono_r; lia). lia.
Qed.

Lemma iter_xO p d : Zpos (Pos.iter xO p d) = Zpos p * 2 ^ Zpos d.
Proof.
  induction d as [|d IH] using Pos.peano_ind.
  - simpl. lia.
  - rewrite Pos.iter_succ, Pos2Z.inj_succ, Z.pow_succ_r by lia.
    rewrite Pos2Z.inj_xO, IH. lia.
Qed.

Lemma shr_record_of_loc_m m l : shr_m (shr_record_of_loc m l) = m.
Proof. by destruct l as [|[]]. Qed.

Lemma loc_of_shr_record_of_loc m l :
  loc_of_shr_record (shr_record_of_loc m l) = l.
Proof. by destruct l as [|[]]. Qed.

(** Rounding a mantissa of 53 bits: no shift, one step of rounding. *)
Lemma binary_round_aux_53 sx (m : Z) e l (m' : positive) :
  Zdigits2 m = 53 → -1074 ≤ e ≤ 971 →
  round_nearest_even m l = Zpos m' → Zdigits2 (Zpos m') = 53 →
  binary_round_aux prec emax sx m e l = S754_finite sx m' e.
Proof.
  intros Hd He Hr Hd'. unfold binary_round_aux, shr_fexp.
  rewrite Hd, fexp_eq.
  replace (Z.max (53 + e - 53) (-1074) - e) with 0 by lia.
  simpl shr. cbv beta iota zeta.
  rewrite shr_record_of_loc_m, loc_of_shr_record_of_loc, Hr.
  rewrite Hd', fexp_eq.
  replace (Z.max (53 + e - 53) (-1074) - e) with 0 by lia.
  simpl. change (emax - prec) with 971.
  destruct (Z.leb_spec e 971); [done|lia].
Qed.

(** Rounding an odd mantissa of 54 bits that lies above the half: one bit
    is shifted out and the mantissa goes up. *)
Lemma binary_round_aux_54 sx (q : positive) e :
  Zdigits2 (Zpos q~1) = 54 → Zdigits2 (Zpos q + 1) = 53 →
  -1074 ≤ e ≤ 970 →
  binary_round_aux prec emax sx (Zpos q~1) e (loc_Inexact Gt)
  = S754_finite sx (q + 1) (e + 1).
Proof.
  intros Hd Hd' He. unfold binary_round_aux, shr_fexp.
  rewrite Hd, fexp_eq.
  replace (Z.max (54 + e - 53) (-1074) - e) with 1 by lia.
  simpl. simpl in Hd'. rewrite Hd', fexp_eq.
  replace (Z.max (53 + (e + 1) - 53) (-1074) - (e + 1)) with 0 by lia.
  simpl. change (emax - prec) with 971.
  destruct (Z.leb_spec (e + 1) 971); [done|lia].
Qed.

Lemma divisor_spec :
  Prim2SF (PrimFloat.div (float_of_Z (2 ^ 32)) (float_of_Z 360)) = divisor_SF.
Proof. vm_compute. reflexivity. Qed.

(** The divisor is [(2^58 + 11) / 45]: a little above [2^29 / 45]. *)
Lemma divisor_mantissa_eq : 45 * Zpos divisor_mantissa = 2 ^ 58 + 11.
Proof. reflexivity. Qed.

(** An integer below [2^53] is rounded to itself: its mantissa is shifted
    to 53 bits. *)
Lemma binary_round_int (sx : bool) (p : positive) (dg : Z) :
  Zdigits2 (Zpos p) = dg → dg < 53 →
  binary_round prec emax sx p 0
  = S754_finite sx (Z.to_pos (Zpos p * 2 ^ (53 - dg))) (dg - 53).
Proof.
  intros Hd Hlt. simpl in Hd.
  pose proof (digits2_pos_bounds p) as Hp. rewrite Hd in Hp.
  assert (0 < dg) by lia.
  unfold binary_round, shl_align.
  rewrite Hd, fexp_eq.
  replace (Z.max (dg + 0 - 53) (-1074)) with (dg - 53) by lia.
  replace (53 - dg) with (- (dg - 53)) by lia.
  destruct (dg - 53) as [| |d] eqn:Hdd; try lia.
  change (Z.neg d - 0) with (Z.neg d). change (- Z.neg d) with (Z.pos d).
  cbv beta iota zeta.
  assert (Hm : Zpos (Pos.iter xO p d) = Zpos p * 2 ^ Zpos d) by apply iter_xO.
  rewrite <- Hm. simpl Z.to_pos.
  assert (Hpow : 2 ^ (dg - 1) * 2 ^ Zpos d = 2 ^ 52
                 ∧ 2 ^ dg * 2 ^ Zpos d = 2 ^ 53).
  { rewrite <- !Z.pow_add_r by lia. split; f_equal; lia. }
  assert (0 < 2 ^ Zpos d) by (apply Z.pow_pos_nonneg; lia).
  apply binary_round_aux_53; try done; try lia.
  - apply Zdigits2_unique; [|lia]. rewrite Hm.
    change (2 ^ (53 - 1)) with (2 ^ 52). nia.
  - apply Zdigits2_unique; [|lia]. rewrite Hm.
    change (2 ^ (53 - 1)) with (2 ^ 52). nia.
Qed.

Lemma div_eucl_unique a b q r :
  0 ≤ r < b → a = b * q + r → Z.div_eucl a b = (q, r).
Proof.
  intros Hr Ha.
  pose proof (Z.div_unique a b q r (or_introl Hr) Ha) as Hq.
  pose proof (Z.mod_unique a b q r (or_introl Hr) Ha) as Hm.
  unfold Z.div, Z.modulo in *. destruct (Z.div_eucl a b). by subst.
Qed.

(** Division by the divisor.  For a dividend [32 t * 2^ex] with [t] even
    and a mantissa of 53 bits, the quotient is [45 t * 2^(ex - 24)]
    exactly: the integer quotient of the mantissas falls one short of
    [45 t] with a remainder above the half, and is rounded up to it. *)
Lemma SFdiv_divisor sx (mx : positive) (ex t : Z) :
  Zpos mx = 32 * t → 2 ^ 47 ≤ t < 2 ^ 48 → Z.even t = true →
  -52 ≤ ex ≤ 0 →
  SFdiv prec emax (S754_finite sx mx ex) divisor_SF
  = if 45 * t <? 2 ^ 53
    then S754_finite sx (Z.to_pos (45 * t)) (ex - 24)
    else S754_finite sx (Z.to_pos (45 * t / 2)) (ex - 23).
Proof.
  intros Hmx Ht Heven Hex.
  change (2 ^ 47) with 140737488355328 in Ht.
  change (2 ^ 48) with 281474976710656 in Ht.
  change (2 ^ 53) with 9007199254740992.
  unfold SFdiv, divisor_SF, SFdiv_core_binary.
  assert (Hdx : Zdigits2 (Zpos mx) = 53).
  { apply Zdigits2_unique; [|lia].
    change (2 ^ (53 - 1)) with 4503599627370496.
    change (2 ^ 53) with 9007199254740992. lia. }
  rewrite Hdx.
  change (Zdigits2 (Zpos divisor_mantissa)) with 53.
  rewrite fexp_eq.
  replace (Z.min (Z.max (53 + ex - (53 + -29) - 53) (-1074)) (ex - -29))
    with (ex - 24) by lia.
  replace (ex - -29 - (ex - 24)) with 53 by lia.
  rewrite Z.shiftl_mul_pow2 by lia.
  change (2 ^ 53) with 9007199254740992.
  rewrite (div_eucl_unique _ _ (45 * t - 1) (Zpos divisor_mantissa - 11 * t));
    [|unfold divisor_mantissa; lia..].
  cbv beta iota zeta.
  assert (Hloc : new_location (Zpos divisor_mantissa)
                   (Zpos divisor_mantissa - 11 * t) = loc_Inexact Gt).
  { unfold new_location. change (Z.even (Zpos divisor_mantissa)) with false.
    cbv beta iota. unfold new_location_odd.
    destruct (Z.eqb_spec (Zpos divisor_mantissa - 11 * t) 0) as [H0|_];
      [unfold divisor_mantissa in H0; lia|].
    destruct (Z.compare_spec
                (2 * (Zpos divisor_mantissa - 11 * t) + 1)
                (Zpos divisor_mantissa)) as [H0|H0|H0];
      [unfold divisor_mantissa in H0; lia..|done]. }
  rewrite Hloc, xorb_false_r.
  destruct (Z.ltb_spec (45 * t) 9007199254740992) as [Hlt|Hge].
  - apply binary_round_aux_53; [|lia| |].
    + apply Zdigits2_unique; [|lia].
      change (2 ^ (53 - 1)) with 4503599627370496.
      change (2 ^ 53) with 9007199254740992. lia.
    + simpl round_nearest_even. rewrite Z2Pos.id by lia. lia.
    + rewrite Z2Pos.id by lia. apply Zdigits2_unique; [|lia].
      change (2 ^ (53 - 1)) with 4503599627370496.
      change (2 ^ 53) with 9007199254740992. lia.
  - apply Z.even_spec in Heven as [u ->].
    replace (45 * (2 * u) - 1) with (Zpos (Z.to_pos (45 * u - 1))~1)
      by (rewrite Pos2Z.inj_xI, Z2Pos.id; lia).
    replace (45 * (2 * u) / 2) with (Zpos (Z.to_pos (45 * u - 1)) + 1).
    2:{ rewrite Z2Pos.id by lia.
        replace (45 * (2 * u)) with ((45 * u) * 2) by lia.
        rewrite Z.div_mul; lia. }
    rewrite binary_round_aux_54.
    + f_equal. lia.
    + apply Zdigits2_unique; [|lia]. rewrite Pos2Z.inj_xI, Z2Pos.id by lia.
      change (2 ^ (54 - 1)) with 9007199254740992.
      change (2 ^ 54) with 18014398509481984. lia.
    + apply Zdigits2_unique; [|lia]. rewrite Z2Pos.id by lia.
      change (2 ^ (53 - 1)) with 4503599627370496.
      change (2 ^ 53) with 9007199254740992. lia.
    + lia.
Qed.

Lemma dyadic_value (c n j : Z) :
  0 ≤ n → 0 ≤ j →
  (inject_Z (c * 2 ^ n) * 2 ^ (- (n + j)) == inject_Z c / inject_Z (2 ^ j))%Q.
Proof.
  intros Hn Hj.
  rewrite inject_Z_mult, !Zpower_Qpower by done.
  rewrite Qpower_opp, Qpower_plus by done.
  change (inject_Z 2) with 2%Q.
  assert (¬ (2 ^ n == 0)%Q) by (by apply Qpower_not_0).
  assert (¬ (2 ^ j == 0)%Q) by (by apply Qpower_not_0).
  field. by split.
Qed.

(** The float of an integer below [2^47] in magnitude and not zero, in
    the form that [SFdiv_divisor] takes. *)
Lemma float_of_Z_shape (sx : bool) (p : positive) :
  Zpos p < 2 ^ 47 →
  ∃ (mx : positive) (n : Z),
    Prim2SF (float_of_Z (if sx then Zneg p else Zpos p))
    = S754_finite sx mx (- (n + 5))
    ∧ 1 ≤ n ≤ 47
    ∧ Zpos mx = 32 * (Zpos p * 2 ^ n)
    ∧ 2 ^ 47 ≤ Zpos p * 2 ^ n < 2 ^ 48.
Proof.
  intros Hp.
  pose proof (digits2_pos_bounds p) as Hd.
  set (dg := Zpos (digits2_pos p)) in *.
  assert (Hdg : 1 ≤ dg ≤ 47).
  { split; [lia|]. destruct (Z.le_gt_cases dg 47) as [|Hgt]; [done|].
    assert (2 ^ 47 ≤ 2 ^ (dg - 1)) by (apply Z.pow_le_mono_r; lia). lia. }
  assert (Hpow : 2 ^ (dg - 1) * 2 ^ (48 - dg) = 2 ^ 47
                 ∧ 2 ^ dg * 2 ^ (48 - dg) = 2 ^ 48
                 ∧ 2 ^ (53 - dg) = 32 * 2 ^ (48 - dg)).
  { rewrite <- !Z.pow_add_r by lia. change 32 with (2 ^ 5).
    rewrite <- Z.pow_add_r by lia. split_and!; f_equal; lia. }
  destruct Hpow as (Hp1 & Hp2 & Hp3).
  assert (0 < 2 ^ (48 - dg)) by (apply Z.pow_pos_nonneg; lia).
  change (2 ^ 47) with 140737488355328 in *.
  change (2 ^ 48) with 281474976710656 in *.
  exists (Z.to_pos (Zpos p * 2 ^ (53 - dg))), (48 - dg).
  split_and!; try lia; try nia.
  unfold float_of_Z.
  replace (binary_normalize prec emax (if sx then Zneg p else Zpos p) 0 false)
    with (binary_round prec emax sx p 0) by (by destruct sx).
  rewrite (binary_round_int sx p dg) by (done || lia).
  replace (- (48 - dg + 5)) with (dg - 53) by lia.
  apply Prim2SF_SF2Prim.
  unfold SpecFloat.valid_binary, bounded, canonical_mantissa.
  assert (Hdm : Zdigits2 (Zpos (Z.to_pos (Zpos p * 2 ^ (53 - dg)))) = 53).
  { apply Zdigits2_unique; [|lia]. rewrite Z2Pos.id by lia.
    change (2 ^ (53 - 1)) with 4503599627370496.
    change (2 ^ 53) with 9007199254740992. nia. }
  simpl in Hdm. rewrite Hdm, fexp_eq.
  replace (Z.max (53 + (dg - 53) - 53) (-1074)) with (dg - 53) by lia.
  rewrite Z.eqb_refl. simpl. change (emax - prec) with 971.
  destruct (Z.leb_spec (dg - 53) 971); [done|lia].
Qed.

(** The quotient of the float of [p] (with either sign) by the divisor
    stands for [45 p / 2^29], which is [180 p / 2^31]. *)
Lemma quotient_value (sx : bool) (p : positive) :
  Zpos p < 2 ^ 47 →
  ∃ q, SF2Q (SFdiv prec emax
               (Prim2SF (float_of_Z (if sx then Zneg p else Zpos p)))
               divisor_SF) = Some q
       ∧ (q == inject_Z ((if sx then Zneg p else Zpos p) * 180)
               / inject_Z (2 ^ 31))%Q.
Proof.
  intros Hp.
  destruct (float_of_Z_shape sx p Hp) as (mx & n & -> & Hn & Hmx & Ht).
  rewrite (SFdiv_divisor sx mx _ (Zpos p * 2 ^ n)); [|done|done| |lia].
  2:{ rewrite Z.even_mul, Z.even_pow by lia. apply orb_true_r. }
  assert (H180 : ∀ z : Z, (inject_Z (z * 45) / inject_Z (2 ^ 29)
                           == inject_Z (z * 180) / inject_Z (2 ^ 31))%Q).
  { intros z. unfold Qeq, Qdiv. simpl. lia. }
  set (z := if sx then Zneg p else Zpos p).
  assert (Hz : ∀ m : positive,
            (if sx then Zneg m else Zpos m) * Zpos p = z * Zpos m)
    by (intros m; subst z; destruct sx; lia).
  assert (Hval : ∀ (m : positive) (e k : Z),
            0 ≤ k → Zpos m = 45 * Zpos p * 2 ^ k → e = - (k + 29) →
            (inject_Z (if sx then Zneg m else Zpos m) * 2 ^ e
             == inject_Z (z * 180) / inject_Z (2 ^ 31))%Q).
  { intros m e k Hk Hm ->. rewrite <- H180.
    replace (if sx then Zneg m else Zpos m) with (z * 45 * 2 ^ k)
      by (subst z; destruct sx; lia).
    apply dyadic_value; lia. }
  change (2 ^ 47) with 140737488355328 in Ht.
  change (2 ^ 48) with 281474976710656 in Ht.
  destruct (Z.ltb_spec (45 * (Zpos p * 2 ^ n)) (2 ^ 53)) as [Hlt|Hge];
    eexists; (split; [reflexivity|]).
  - apply (Hval _ _ n); [lia| |lia]. rewrite Z2Pos.id by lia. lia.
  - assert (Hhalf : 45 * (Zpos p * 2 ^ n) / 2 = 45 * Zpos p * 2 ^ (n - 1)).
    { replace n with (Z.succ (n - 1)) at 1 by lia.
      rewrite Z.pow_succ_r by lia.
      replace (45 * (Zpos p * (2 * 2 ^ (n - 1))))
        with (45 * Zpos p * 2 ^ (n - 1) * 2) by lia.
      apply Z.div_mul. lia. }
    assert (0 < 2 ^ (n - 1)) by (apply Z.pow_pos_nonneg; lia).
    apply (Hval _ _ (n - 1)); [lia| |lia].
    rewrite Hhalf, Z2Pos.id by lia. done.
Qed.

(** In binary64, the degrees of [s] semicircles are [s * 180 / 2^31], with
    no rounding error, for every [s] below [2^47] in magnitude. *)
Lemma semicircle_to_degrees_value (s : Z) :
  - 2 ^ 47 < s < 2 ^ 47 →
  ∃ q, float_to_Q (semicircle_to_degrees s) = Some q
       ∧ (q == inject_Z (s * 180) / inject_Z (2 ^ 31))%Q.
Proof.
  intros Hs. unfold float_to_Q, semicircle_to_degrees.
  rewrite FloatAxioms.div_spec, divisor_spec. unfold SF64div.
  destruct s as [|p|p].
  - exists 0%Q. split; [|done]. vm_compute. reflexivity.
  - apply (quotient_value false p). lia.
  - apply (quotient_value true p). lia.
Qed.

(** A float that stands for a rational is not a NaN. *)
Lemma float_to_Q_not_nan (x : float) q :
  float_to_Q x = Some q → PrimFloat.is_nan x = false.
Proof.
  unfold float_to_Q, Prim2SF. by destruct (PrimFloat.is_nan x).
Qed.

(** A NaN divided is a NaN. *)
Lemma div_nan (x y : float) :
  PrimFloat.is_nan x = true → PrimFloat.is_nan (PrimFloat.div x y) = true.
Proof.
  intros Hx.
  assert (Hsf : Prim2SF (PrimFloat.div x y) = S754_nan).
  { rewrite FloatAxioms.div_spec. unfold Prim2SF at 1. by rewrite Hx. }
  rewrite <- (SF2Prim_Prim2SF (PrimFloat.div x y)), Hsf. reflexivity.
Qed.

Lemma semicircle_to_degrees_not_nan (s : Z) :
  - 2 ^ 47 < s < 2 ^ 47 →
  PrimFloat.is_nan (semicircle_to_degrees s) = false.
Proof.
  intros Hs. destruct (semicircle_to_degrees_value s Hs) as (q & Hq & _).
  by eapply float_to_Q_not_nan.
Qed.

(** ** The extractor *)

(** The loop returns the points it had, then those of the outcomes to
    come, and logs one line per outcome without a point. *)
Lemma read_records_run records points w :
  read_records records points w
  = (Ok (points ++ omap accepted records), add_log (read_log records) w).
Proof.
  revert points w. induction records as [|ev records IH]; intros points w.
  - simpl. by rewrite app_nil_r.
  - destruct ev as [record|e]; simpl.
    + unfold read_log. rewrite filter_cons.
      destruct (Point_init (get_values record)) as [p|e] eqn:Hp.
      * rewrite IH, <- app_assoc. simpl.
        rewrite decide_False; [done|].
        intros Hn. apply Hn. unfold well_formed. simpl. by rewrite Hp.
      * unfold bind. simpl. rewrite IH.
        rewrite decide_True.
        -- unfold add_log. simpl. by rewrite <- app_assoc.
        -- unfold well_formed. simpl. rewrite Hp. by intros [? ?].
    + unfold bind. simpl. rewrite IH. unfold read_log.
      rewrite filter_cons, decide_True.
      * unfold add_log. simpl. by rewrite <- app_assoc.
      * unfold well_formed. simpl. by intros [? ?].
Qed.

Lemma omap_cons_eq {A B} (f : A → option B) (x : A) (l : list A) :
  omap f (x :: l)
  = match f x with Some y => y :: omap f l | None => omap f l end.
Proof. reflexivity. Qed.

(** Taking the malformed outcomes out of a stream does not change the
    points it gives. *)
Lemma omap_accepted_filter (records : list event) :
  omap accepted (filter well_formed records) = omap accepted records.
Proof.
  induction records as [|ev records IH]; [done|].
  rewrite filter_cons, omap_cons_eq. case_decide as Hw.
  - by rewrite omap_cons_eq, IH.
  - rewrite IH. destruct (accepted ev) eqn:Ha; [|done].
    exfalso. apply Hw. unfold well_formed. by rewrite Ha.
Qed.

Lemma length_omap_accepted (records : list event) :
  length (omap accepted records) = length (filter well_formed records).
Proof.
  induction records as [|ev records IH]; [done|].
  rewrite filter_cons, omap_cons_eq.
  destruct (accepted ev) eqn:Ha.
  - rewrite decide_True by (unfold well_formed; rewrite Ha; eauto).
    simpl. by rewrite IH.
  - rewrite decide_False; [done|].
    unfold well_formed. rewrite Ha. by intros [? ?].
Qed.

(** ** Reasoning about computations *)

Lemma wp_mono {A} (m : M A) w (Q Q' : result A → world → Prop) :
  (∀ r w', Q r w' → Q' r w') → wp m w Q → wp m w Q'.
Proof. unfold wp. auto. Qed.

Lemma wp_ret {A} (a : A) w Q : Q (Ok a) w → wp (ret a) w Q.
Proof. done. Qed.

Lemma wp_raise {A} e w (Q : result A → world → Prop) :
  Q (Err e) w → wp (raise e) w Q.
Proof. done. Qed.

Lemma wp_lift {A} (r : result A) w Q : Q r w → wp (lift r) w Q.
Proof. done. Qed.

Lemma wp_bind {A B} (m : M A) (f : A → M B) w Q :
  wp m w (λ r w', match r with
                  | Ok a => wp (f a) w' Q
                  | Err e => Q (Err e) w'
                  end) →
  wp (bind m f) w Q.
Proof. unfold wp, bind. by destruct (m w) as [[a|e] w']. Qed.

Lemma wp_alloc o w Q :
  (∀ l, heap w !! l = None → Q (Ok l) (set_heap (insert l o) w)) →
  wp (alloc o) w Q.
Proof.
  intros H. unfold wp, alloc. simpl. apply H.
  apply not_elem_of_dom, is_fresh.
Qed.

Lemma wp_load l w Q :
  match heap w !! l with
  | Some o => Q (Ok o) w
  | None => Q (Err AttributeError) w
  end →
  wp (load l) w Q.
Proof. unfold wp, load. by destruct (heap w !! l). Qed.

Lemma wp_store l o w Q :
  Q (Ok tt) (set_heap (insert l o) w) → wp (store l o) w Q.
Proof. done. Qed.

(** A loop, by an invariant over the elements already handled. *)
Lemma wp_for_each {A} (l : list A) (body : A → M unit)
    (I : list A → world → Prop) (E : exn → world → Prop) w :
  I [] w →
  (∀ seen x rest w',
     l = seen ++ x :: rest → I seen w' →
     wp (body x) w' (λ r w'', match r with
                              | Ok _ => I (seen ++ [x]) w''
                              | Err e => E e w''
                              end)) →
  wp (for_each l body) w (λ r w', match r with
                                 | Ok _ => I l w'
                                 | Err e => E e w'
                                 end).
Proof.
  intros Hinit Hbody.
  assert (Hgen : ∀ rest seen w',
             l = seen ++ rest → I seen w' →
             wp (for_each rest body) w'
               (λ r w'', match r with Ok _ => I l w'' | Err e => E e w'' end)).
  { induction rest as [|x rest IH]; intros seen w' Hl HI.
    - rewrite app_nil_r in Hl. subst seen. by apply wp_ret.
    - simpl. apply wp_bind.
      eapply wp_mono; [|by eapply Hbody].
      intros [[]|e] w''; [|done]. intros HI'.
      apply (IH (seen ++ [x])); [|done]. by rewrite <- app_assoc. }
  by apply (Hgen l []).
Qed.

(** Table and GPX objects. *)
Lemma wp_load_df df w Q :
  match heap w !! df with
  | Some (ODataFrame d) => Q (Ok d) w
  | _ => Q (Err AttributeError) w
  end →
  wp (load_df df) w Q.
Proof.
  intros H. unfold load_df. apply wp_bind, wp_load.
  destruct (heap w !! df) as [[]|]; done.
Qed.

Lemma wp_df_getitem df d key w Q :
  heap w !! df = Some (ODataFrame d) →
  Q (getitem d key) w → wp (df_getitem df key) w Q.
Proof.
  intros Hdf H. unfold df_getitem. apply wp_bind, wp_load_df.
  rewrite Hdf. by apply wp_lift.
Qed.

Lemma wp_df_setitem df d key series w Q :
  heap w !! df = Some (ODataFrame d) →
  Q (Ok tt) (set_heap (insert df (ODataFrame (setitem d key series))) w) →
  wp (df_setitem df key series) w Q.
Proof.
  intros Hdf H. unfold df_setitem. apply wp_bind, wp_load_df.
  rewrite Hdf. by apply wp_store.
Qed.

Lemma wp_tracks_append gpx track ts w Q :
  heap w !! gpx = Some (OGPX ts) →
  Q (Ok tt) (set_heap (insert gpx (OGPX (ts ++ [track]))) w) →
  wp (tracks_append gpx track) w Q.
Proof.
  intros Hg H. unfold tracks_append. apply wp_bind, wp_load.
  rewrite Hg. by apply wp_store.
Qed.

Lemma wp_segments_append track segment ss w Q :
  heap w !! track = Some (OGPXTrack ss) →
  Q (Ok tt) (set_heap (insert track (OGPXTrack (ss ++ [segment]))) w) →
  wp (segments_append track segment) w Q.
Proof.
  intros Hg H. unfold segments_append. apply wp_bind, wp_load.
  rewrite Hg. by apply wp_store.
Qed.

Lemma wp_points_append segment p ps w Q :
  heap w !! segment = Some (OGPXTrackSegment ps) →
  Q (Ok tt) (set_heap (insert segment (OGPXTrackSegment (ps ++ [p]))) w) →
  wp (points_append segment p) w Q.
Proof.
  intros Hg H. unfold points_append. apply wp_bind, wp_load.
  rewrite Hg. by apply wp_store.
Qed.

(** ** The serializer *)

Lemma survives_iff row :
  survives row ↔
  isna (cell row "latitude") = false ∧ isna (cell row "longitude") = false
  ∧ isna (cell row "timestamp") = false.
Proof.
  unfold survives, notna_in, required. rewrite !Forall_cons, Forall_nil.
  tauto.
Qed.

Lemma notna_lookup (row : gmap string value) key :
  isna (cell row key) = false → row !! key = Some (cell row key).
Proof. unfold cell. by destruct (row !! key). Qed.

Lemma typed_timestamp_cases row :
  typed_timestamp row →
  cell row "timestamp" = VNone ∨ ∃ t, cell row "timestamp" = VDatetime t.
Proof.
  unfold typed_timestamp. destruct (cell row "timestamp"); eauto; done.
Qed.

Lemma output_point_Some row :
  typed_timestamp row → survives row → is_Some (output_point row).
Proof.
  intros Ht Hs. unfold output_point. rewrite decide_True by done.
  apply survives_iff in Hs as (_ & _ & Hts).
  apply typed_timestamp_cases in Ht as [Ht|[t Ht]]; rewrite Ht in *;
    [done|eauto].
Qed.

Lemma output_point_None row : ¬ survives row → output_point row = None.
Proof. intros. unfold output_point. by rewrite decide_False. Qed.

Lemma dropna_required d :
  required ⊆ columns d →
  dropna d required = Ok (mkDataFrame (columns d) (filter survives (rows d))).
Proof.
  intros Hsub. unfold dropna.
  assert (Hnil : filter (λ key, key ∉ columns d) required = []).
  { unfold required. rewrite !filter_cons, filter_nil.
    rewrite !decide_False; [done|intros Hn; apply Hn, Hsub; field_name..]. }
  by rewrite Hnil.
Qed.

Lemma dropna_Ok d subset d' :
  dropna d subset = Ok d' →
  subset ⊆ columns d
  ∧ d' = mkDataFrame (columns d) (filter (notna_in subset) (rows d)).
Proof.
  unfold dropna. destruct (filter _ subset) as [|key l] eqn:Hf; [|done].
  intros [= <-]. split; [|done]. intros key Hkey.
  destruct (decide (key ∈ columns d)) as [|Hn]; [done|].
  assert (key ∈ filter (λ key, key ∉ columns d) subset)
    by (by apply list_elem_of_filter).
  rewrite Hf in *. by apply elem_of_nil in H.
Qed.

Lemma doc_inv_alloc w0 w df gpx track segment o pts l o' :
  doc_inv w0 w df gpx track segment o pts →
  heap w !! l = None →
  doc_inv w0 (set_heap (insert l o') w) df gpx track segment o pts.
Proof.
  intros [] Hl. split; simpl; try done;
    (rewrite lookup_insert_ne; [done|congruence]).
Qed.

Lemma doc_inv_append w0 w df gpx track segment o pts p :
  doc_inv w0 w df gpx track segment o pts →
  df ≠ segment →
  doc_inv w0 (set_heap (insert segment (OGPXTrackSegment (pts ++ [p]))) w)
    df gpx track segment o (pts ++ [p]).
Proof.
  intros [] Hne. split; simpl; try done.
  - rewrite lookup_insert_ne; [done|congruence].
  - rewrite lookup_insert_ne; [done|congruence].
  - by rewrite lookup_insert_eq.
  - by rewrite lookup_insert_ne.
Qed.

Lemma doc_inv_document w0 w df gpx track segment o pts :
  doc_inv w0 w df gpx track segment o pts →
  document_at (heap w) gpx = Some (mkGPX [mkTrack [mkSegment pts]]).
Proof.
  intros []. unfold document_at. rewrite inv_gpx0. simpl.
  unfold track_at. rewrite inv_track0. simpl.
  unfold segment_at. by rewrite inv_segment0.
Qed.

(** The first five statements of [pdf_to_gpx] set up the document. *)
Lemma wp_new_document (df : loc) o w (k : loc → loc → M loc) Q :
  heap w !! df = Some o →
  (∀ gpx track segment w',
     doc_inv w w' df gpx track segment o [] → df ≠ segment →
     wp (k gpx segment) w' Q) →
  wp (do gpx <- alloc (OGPX []);
      do gpx_track <- alloc (OGPXTrack []);
      do_ tracks_append gpx gpx_track;
      do gpx_segment <- alloc (OGPXTrackSegment []);
      do_ segments_append gpx_track gpx_segment;
      k gpx gpx_segment) w Q.
Proof.
  intros Hdf Hk.
  apply wp_bind, wp_alloc. intros g Hg.
  apply wp_bind, wp_alloc. intros t Ht. simpl in Ht.
  apply lookup_insert_None in Ht as [Ht Hgt].
  apply wp_bind. eapply wp_tracks_append.
  { simpl. by rewrite lookup_insert_ne, lookup_insert_eq. }
  apply wp_bind, wp_alloc. intros s Hs. simpl in Hs.
  do 3 apply lookup_insert_None in Hs as [Hs ?].
  apply wp_bind. eapply wp_segments_append.
  { simpl. rewrite lookup_insert_ne, lookup_insert_ne, lookup_insert_eq; done. }
  apply (Hk g t s); [|congruence].
  split; simpl; try done.
  - rewrite lookup_insert_ne, lookup_insert_ne, lookup_insert_eq; done.
  - by rewrite lookup_insert_eq.
  - rewrite lookup_insert_ne, lookup_insert_eq; done.
  - rewrite !lookup_insert_ne; congruence.
Qed.

Lemma omap_output_point_filter (table : list (gmap string value)) :
  omap output_point (filter survives table) = omap output_point table.
Proof.
  induction table as [|row table IH]; [done|].
  rewrite filter_cons, omap_cons_eq. case_decide as Hs.
  - by rewrite omap_cons_eq, IH.
  - by rewrite IH, output_point_None.
Qed.

Section Serializer.

Variable pd_Timestamp : value → result datetime.
Hypothesis pd_Timestamp_datetime : ∀ t, pd_Timestamp (VDatetime t) = Ok t.

(** The body of the loop of [pdf_to_gpx]. *)
Lemma wp_append_row segment row ps p w Q :
  heap w !! segment = Some (OGPXTrackSegment ps) →
  output_point row = Some p →
  Q (Ok tt) (set_heap (insert segment (OGPXTrackSegment (ps ++ [p]))) w) →
  wp (do lat <- row_getitem row "latitude";
      do long <- row_getitem row "longitude";
      do ts <- row_getitem row "timestamp";
      do t <- lift (pd_Timestamp ts);
      points_append segment (mkGPXTrackPoint lat long t)) w Q.
Proof.
  intros Hseg Hp HQ. unfold output_point in Hp.
  case_decide as Hs; [|done].
  apply survives_iff in Hs as (Hla & Hlo & Hts).
  destruct (cell row "timestamp") as [| | | |t] eqn:Ht; try done.
  injection Hp as <-.
  unfold row_getitem.
  rewrite (notna_lookup _ _ Hla), (notna_lookup _ _ Hlo).
  rewrite (notna_lookup row "timestamp") by (by rewrite Ht).
  apply wp_bind, wp_ret, wp_bind, wp_ret, wp_bind, wp_ret.
  apply wp_bind, wp_lift. rewrite Ht, pd_Timestamp_datetime.
  by eapply wp_points_append.
Qed.

(** On a normalized table the serializer returns a document of one
    track with one segment, which holds the points of the surviving
    rows in the order of the table; the table is left as it was. *)
Lemma pdf_to_gpx_document df d w :
  heap w !! df = Some (ODataFrame d) →
  normalized d →
  wp (pdf_to_gpx pd_Timestamp df) w (λ r w',
    ∃ gpx, r = Ok gpx
      ∧ document_at (heap w') gpx
        = Some (mkGPX [mkTrack [mkSegment (omap output_point (rows d))]])
      ∧ heap w' !! df = Some (ODataFrame d)
      ∧ files w' = files w ∧ log w' = log w).
Proof.
  intros Hdf [Hcols Htyped]. unfold pdf_to_gpx.
  apply (wp_new_document df (ODataFrame d)); [done|].
  intros g t s w1 Hinv Hne.
  apply wp_bind. unfold df_copy. apply wp_bind, wp_load_df.
  rewrite (inv_df _ _ _ _ _ _ _ _ Hinv).
  apply wp_alloc. intros c Hc.
  apply (doc_inv_alloc _ _ _ _ _ _ _ _ c (ODataFrame d)) in Hinv; [|done].
  apply wp_bind. unfold df_dropna. apply wp_bind, wp_load_df.
  simpl. rewrite lookup_insert_eq.
  apply wp_bind, wp_lift. rewrite dropna_required by done.
  apply wp_alloc. intros c' Hc'.
  eapply (doc_inv_alloc _ _ _ _ _ _ _ _ c') in Hinv; [|done].
  apply wp_bind. unfold iterrows. apply wp_bind, wp_load_df.
  simpl. rewrite lookup_insert_eq. apply wp_ret. simpl.
  apply wp_bind.
  eapply wp_mono;
    [|apply (wp_for_each _ _
               (λ seen w', doc_inv w w' df g t s (ODataFrame d)
                             (omap output_point seen))
               (λ _ _, False))].
  - intros [[]|e] w'; [|done]. intros Hinv'. apply wp_ret.
    exists g. rewrite (doc_inv_document _ _ _ _ _ _ _ _ Hinv').
    rewrite omap_output_point_filter.
    split_and!; [done..|apply Hinv'|apply Hinv'|apply Hinv'].
  - done.
  - intros seen row rest w' Hl Hinv'.
    assert (Hrow : row ∈ filter survives (rows d)).
    { rewrite Hl. apply elem_of_app. right. apply list_elem_of_here. }
    apply list_elem_of_filter in Hrow as [Hs Hrow].
    destruct (output_point_Some row) as [p Hp]; [|done|].
    { by eapply Forall_forall in Htyped. }
    eapply wp_append_row; [apply Hinv'|done|].
    rewrite omap_app. simpl. rewrite Hp. simpl.
    by apply doc_inv_append.
Qed.

End Serializer.

(** ** The normalizer *)

Lemma semicircle_to_degrees_series_numeric (col : list value) :
  Forall numeric col →
  semicircle_to_degrees_series col = Ok (degrees <$> col).
Proof.
  induction 1 as [|v col Hv _ IH]; [done|].
  simpl. rewrite IH. unfold degrees. by destruct v.
Qed.

Lemma semicircle_to_degrees_series_Ok (col out : list value) :
  semicircle_to_degrees_series col = Ok out →
  Forall numeric col ∧ out = degrees <$> col.
Proof.
  revert out. induction col as [|v col IH]; intros out; simpl.
  - by intros [= <-].
  - destruct (semicircle_to_degrees_cell v) as [d|] eqn:Hv; [|done].
    destruct (semicircle_to_degrees_series col) as [ds|]; [|done].
    intros [= <-]. destruct (IH ds eq_refl) as [Hnum ->].
    unfold degrees. rewrite Hv. split; [|done].
    constructor; [|done]. by destruct v.
Qed.

Lemma zip_with_fmap_same {A B C} (g : A → B → C) (f : A → B)
    (l : list A) :
  zip_with g l (f <$> l) = (λ x, g x (f x)) <$> l.
Proof. induction l; simpl; by f_equal. Qed.

Lemma rows_assign key src f d :
  rows (assign key src f d) = (λ r, <[key := f (cell r src)]> r) <$> rows d.
Proof.
  unfold assign, setitem. simpl.
  by rewrite <- list_fmap_compose, zip_with_fmap_same.
Qed.

Lemma getitem_column d key :
  key ∈ columns d → getitem d key = Ok ((λ r, cell r key) <$> rows d).
Proof. intros. unfold getitem. by rewrite decide_True. Qed.

Lemma cell_insert_ne (row : gmap string value) key key' v :
  key ≠ key' → cell (<[key := v]> row) key' = cell row key'.
Proof. intros. unfold cell. by rewrite lookup_insert_ne. Qed.

Lemma cell_insert_eq (row : gmap string value) key v :
  cell (<[key := v]> row) key = v.
Proof. unfold cell. by rewrite lookup_insert_eq. Qed.

Section Normalizer.

Variable to_datetime : value → option datetime.

Lemma normalized_table_assign (points : list Point) :
  assign "longitude" "position_long" degrees
    (assign "latitude" "position_lat" degrees
       (assign "timestamp" "timestamp" (to_datetime_coerce to_datetime)
          (mkDataFrame Point_fields (asdict <$> points))))
  = normalized_table to_datetime points.
Proof.
  unfold normalized_table.
  match goal with
  | |- ?l = _ => rewrite (eq_refl : l = mkDataFrame (columns l) (rows l))
  end.
  f_equal.
  rewrite !rows_assign. simpl. rewrite <- !list_fmap_compose.
  apply list_fmap_ext. intros _ p _. simpl. unfold normalize.
  by rewrite !cell_insert_ne.
Qed.

Lemma position_numeric_rows (points : list Point) f key proj :
  (∀ p, cell (f (asdict p)) key = proj p) →
  Forall (λ p, numeric (proj p)) points →
  Forall numeric ((λ r, cell r key) <$> (f <$> (asdict <$> points))).
Proof.
  intros Hcell Hnum. rewrite <- !list_fmap_compose.
  apply Forall_fmap. eapply Forall_impl; [done|].
  intros p Hp. simpl. by rewrite Hcell.
Qed.

Lemma set_heap_twice l o o' w :
  set_heap (insert l o') (set_heap (insert l o) w)
  = set_heap (insert l o') w.
Proof. unfold set_heap. simpl. by rewrite insert_insert_eq. Qed.

(** On a list that is not empty and whose positions are numbers or
    nulls, the normalizer allocates the normalized table. *)
Lemma points_to_pdf_table (points : list Point) w :
  points ≠ [] →
  Forall numeric_position points →
  wp (points_to_pdf to_datetime points) w (λ r w',
    ∃ df, r = Ok df ∧ heap w !! df = None
      ∧ w' = set_heap (insert df (ODataFrame (normalized_table to_datetime
                                                points))) w).
Proof.
  intros Hne Hnum. unfold points_to_pdf.
  apply wp_bind, wp_alloc. intros df Hdf.
  assert (Hd0 : pd_DataFrame points
                = mkDataFrame Point_fields (asdict <$> points))
    by (by destruct points).
  rewrite Hd0. clear Hd0.
  rewrite <- (normalized_table_assign points).
  set (d0 := mkDataFrame Point_fields (asdict <$> points)).
  apply wp_bind. eapply wp_df_getitem; [simpl; by rewrite lookup_insert_eq|].
  rewrite getitem_column by field_name.
  apply wp_bind. eapply wp_df_setitem; [simpl; by rewrite lookup_insert_eq|].
  rewrite set_heap_twice.
  fold (assign "timestamp" "timestamp" (to_datetime_coerce to_datetime) d0).
  set (d1 := assign "timestamp" "timestamp" _ d0).
  apply wp_bind. eapply wp_df_getitem; [simpl; by rewrite lookup_insert_eq|].
  rewrite getitem_column by field_name.
  apply wp_bind, wp_lift.
  rewrite semicircle_to_degrees_series_numeric.
  2:{ subst d1. rewrite rows_assign. simpl.
      apply (position_numeric_rows _ _ _ position_lat); [done|].
      eapply Forall_impl; [done|]. by intros p []. }
  apply wp_bind. eapply wp_df_setitem; [simpl; by rewrite lookup_insert_eq|].
  rewrite set_heap_twice.
  fold (assign "latitude" "position_lat" degrees d1).
  set (d2 := assign "latitude" "position_lat" _ d1).
  apply wp_bind. eapply wp_df_getitem; [simpl; by rewrite lookup_insert_eq|].
  rewrite getitem_column by field_name.
  apply wp_bind, wp_lift.
  rewrite semicircle_to_degrees_series_numeric.
  2:{ subst d2 d1. rewrite !rows_assign. simpl.
      rewrite <- (list_fmap_compose _ _ (asdict <$> points)).
      apply (position_numeric_rows _ _ _ position_long); [done|].
      eapply Forall_impl; [done|]. by intros p []. }
  apply wp_bind. eapply wp_df_setitem; [simpl; by rewrite lookup_insert_eq|].
  rewrite set_heap_twice. apply wp_ret. by exists df.
Qed.

(** On the empty list the table has no column, and the first column
    access raises. *)
Lemma points_to_pdf_empty w :
  wp (points_to_pdf to_datetime []) w (λ r w',
    r = Err (KeyError ["timestamp"%string])
    ∧ files w' = files w ∧ log w' = log w).
Proof.
  unfold points_to_pdf.
  apply wp_bind, wp_alloc. intros df Hdf.
  apply wp_bind. eapply wp_df_getitem; [simpl; by rewrite lookup_insert_eq|].
  done.
Qed.

End Normalizer.

(** ** The serializer on any table *)

Lemma doc_inv_frame w0 w df gpx track segment o pts :
  doc_inv w0 w df gpx track segment o pts →
  heap w !! df = Some o ∧ files w = files w0 ∧ log w = log w0.
Proof. by intros []. Qed.

Section Frame.

Variable pd_Timestamp : value → result datetime.

Lemma wp_append_row_any segment row ps w Q :
  heap w !! segment = Some (OGPXTrackSegment ps) →
  (∀ p, Q (Ok tt)
          (set_heap (insert segment (OGPXTrackSegment (ps ++ [p]))) w)) →
  (∀ e, Q (Err e) w) →
  wp (do lat <- row_getitem row "latitude";
      do long <- row_getitem row "longitude";
      do ts <- row_getitem row "timestamp";
      do t <- lift (pd_Timestamp ts);
      points_append segment (mkGPXTrackPoint lat long t)) w Q.
Proof.
  intros Hseg Hok Herr. unfold row_getitem.
  apply wp_bind. destruct (row !! "latitude"%string); [|by apply wp_raise].
  apply wp_ret, wp_bind.
  destruct (row !! "longitude"%string); [|by apply wp_raise].
  apply wp_ret, wp_bind.
  destruct (row !! "timestamp"%string) as [ts|]; [|by apply wp_raise].
  apply wp_ret, wp_bind, wp_lift.
  destruct (pd_Timestamp ts); [|done].
  by eapply wp_points_append.
Qed.

(** Whatever the object at [df] is and however the call ends, the
    object at [df], the files and the log are the same after it; and
    when the call returns, [df] is a table with the three columns and
    the document has one track, one segment and one point per row that
    survives. *)
Lemma pdf_to_gpx_outcome df o w :
  heap w !! df = Some o →
  wp (pdf_to_gpx pd_Timestamp df) w (λ r w',
    (heap w' !! df = Some o ∧ files w' = files w ∧ log w' = log w)
    ∧ match r with
      | Ok gpx =>
          ∃ d pts,
            o = ODataFrame d ∧ required ⊆ columns d
            ∧ document_at (heap w') gpx
              = Some (mkGPX [mkTrack [mkSegment pts]])
            ∧ length pts = length (filter survives (rows d))
      | Err _ => True
      end).
Proof.
  intros Hdf. unfold pdf_to_gpx.
  apply (wp_new_document df o); [done|].
  intros g t s w1 Hinv Hne.
  apply wp_bind. unfold df_copy. apply wp_bind, wp_load_df.
  pose proof (doc_inv_frame _ _ _ _ _ _ _ _ Hinv) as Hfr.
  rewrite (inv_df _ _ _ _ _ _ _ _ Hinv).
  destruct o as [d| | |]; try (by destruct Hfr as (? & ? & ?)).
  apply wp_alloc. intros c Hc.
  apply (doc_inv_alloc _ _ _ _ _ _ _ _ c (ODataFrame d)) in Hinv; [|done].
  apply wp_bind. unfold df_dropna. apply wp_bind, wp_load_df.
  simpl. rewrite lookup_insert_eq.
  apply wp_bind, wp_lift.
  destruct (dropna d required) as [d'|e] eqn:Hdrop;
    [|split; [by eapply doc_inv_frame|done]].
  apply dropna_Ok in Hdrop as [Hcols ->].
  apply wp_alloc. intros c' Hc'.
  eapply (doc_inv_alloc _ _ _ _ _ _ _ _ c') in Hinv; [|done].
  apply wp_bind. unfold iterrows. apply wp_bind, wp_load_df.
  simpl. rewrite lookup_insert_eq. apply wp_ret. simpl.
  apply wp_bind.
  eapply wp_mono;
    [|apply (wp_for_each _ _
               (λ seen w', ∃ pts, doc_inv w w' df g t s (ODataFrame d) pts
                                  ∧ length pts = length seen)
               (λ _ w', heap w' !! df = Some (ODataFrame d)
                        ∧ files w' = files w ∧ log w' = log w))].
  - intros [[]|e] w'; [|done]. intros (pts & Hinv' & Hlen). apply wp_ret.
    split; [by eapply doc_inv_frame|].
    exists d, pts. split_and!; [done..| |done].
    by eapply doc_inv_document.
  - by exists [].
  - intros seen row rest w' _ (pts & Hinv' & Hlen).
    eapply wp_append_row_any; [apply Hinv'| |].
    + intros p. exists (pts ++ [p]). split; [by apply doc_inv_append|].
      rewrite !length_app. simpl. lia.
    + intros _. by eapply doc_inv_frame.
Qed.

End Frame.

(** ** The normalized table is normalized *)

Section Pipeline.

Variable to_datetime : value → option datetime.

Lemma normalize_cells (row : gmap string value) :
  cell (normalize to_datetime row) "timestamp"
  = to_datetime_coerce to_datetime (cell row "timestamp")
  ∧ cell (normalize to_datetime row) "latitude"
    = degrees (cell row "position_lat")
  ∧ cell (normalize to_datetime row) "longitude"
    = degrees (cell row "position_long").
Proof.
  unfold normalize. split_and!.
  - rewrite !cell_insert_ne by done. apply cell_insert_eq.
  - rewrite cell_insert_ne by done. apply cell_insert_eq.
  - by rewrite cell_insert_eq.
Qed.

Lemma asdict_cells p :
  cell (asdict p) "timestamp" = timestamp p
  ∧ cell (asdict p) "position_lat" = position_lat p
  ∧ cell (asdict p) "position_long" = position_long p.
Proof. done. Qed.

Lemma normalized_table_normalized (points : list Point) :
  normalized (normalized_table to_datetime points).
Proof.
  split.
  - intros key Hkey. unfold required in Hkey. rewrite !elem_of_cons in Hkey.
    destruct Hkey as [->|[->|[->|Hkey]]];
      [field_name..|by apply elem_of_nil in Hkey].
  - simpl. apply Forall_fmap, Forall_forall. intros p _. simpl.
    unfold typed_timestamp.
    destruct (normalize_cells (asdict p)) as (-> & _ & _).
    unfold to_datetime_coerce. by destruct (to_datetime _).
Qed.

Lemma track_point_None_timestamp p :
  to_datetime (timestamp p) = None → track_point to_datetime p = None.
Proof.
  intros Hts. apply output_point_None. rewrite survives_iff.
  destruct (normalize_cells (asdict p)) as (-> & _ & _).
  destruct (asdict_cells p) as (-> & _ & _).
  unfold to_datetime_coerce. rewrite Hts. simpl. by intros (_ & _ & ?).
Qed.

(** A record with integer positions of the 32-bit range and a timestamp
    that is read gives its point, with the degrees of its positions. *)
Lemma track_point_int p (la lo : Z) t :
  position_lat p = VInt la → position_long p = VInt lo →
  - 2 ^ 31 ≤ la ≤ 2 ^ 31 → - 2 ^ 31 ≤ lo ≤ 2 ^ 31 →
  to_datetime (timestamp p) = Some t →
  track_point to_datetime p
  = Some (mkGPXTrackPoint (VFloat (semicircle_to_degrees la))
            (VFloat (semicircle_to_degrees lo)) t).
Proof.
  intros Hla Hlo Hrla Hrlo Hts. unfold track_point, output_point.
  destruct (normalize_cells (asdict p)) as (Hc1 & Hc2 & Hc3).
  destruct (asdict_cells p) as (Ha1 & Ha2 & Ha3).
  rewrite Hc1, Hc2, Hc3, Ha1, Ha2, Ha3, Hla, Hlo.
  unfold to_datetime_coerce. rewrite Hts. unfold degrees. simpl.
  change (2 ^ 31) with 2147483648 in *.
  rewrite decide_True; [done|]. apply survives_iff.
  rewrite Hc1, Hc2, Hc3, Ha1, Ha2, Ha3, Hla, Hlo.
  unfold to_datetime_coerce. rewrite Hts. unfold degrees. simpl.
  split_and!; [| |done]; apply semicircle_to_degrees_not_nan;
    change (2 ^ 47) with 140737488355328; lia.
Qed.

End Pipeline.

(** * The claims of the specification *)

Lemma wp_run {A} (m : M A) w (Q : result A → world → Prop) :
  wp m w Q → ∃ r w', m w = (r, w') ∧ Q r w'.
Proof.
  intros H. exists (m w).1, (m w).2. split; [by destruct (m w)|done].
Qed.

Lemma accepted_filter_Forall2 (records : list event) :
  Forall2 (λ ev p, accepted ev = Some p)
    (filter well_formed records) (omap accepted records).
Proof.
  induction records as [|ev records IH]; [constructor|].
  rewrite filter_cons, omap_cons_eq.
  destruct (accepted ev) as [p|] eqn:Ha.
  - rewrite decide_True by (unfold well_formed; rewrite Ha; eauto).
    by constructor.
  - rewrite decide_False; [done|].
    unfold well_formed. rewrite Ha. by intros [? ?].
Qed.

Lemma length_filter_split (records : list event) :
  (length (filter well_formed records)
   + length (filter (λ ev, ¬ well_formed ev) records)
   = length records)%nat.
Proof.
  induction records as [|ev records IH]; [done|].
  rewrite !filter_cons. destruct (decide (well_formed ev)).
  - rewrite decide_False by tauto. simpl. lia.
  - rewrite decide_True by done. simpl. lia.
Qed.

Lemma read_fit_file_run fitparse_FitFile (path data : string)
    (records : list event) (w : world) :
  files w !! path = Some data →
  fitparse_FitFile data = Ok records →
  read_fit_file fitparse_FitFile (Some path) w
  = (Ok (omap accepted records), add_log (read_log records) w).
Proof.
  intros Hfile Hopen. unfold read_fit_file, bind, FitFile.
  rewrite Hfile, Hopen. apply read_records_run.
Qed.

(** A record is well formed by its content exactly when the constructor
    takes it. *)
Lemma well_formed_has_point_fields ev : well_formed ev ↔ has_point_fields ev.
Proof.
  unfold well_formed. destruct ev as [record|e]; simpl.
  - rewrite <- Point_init_names.
    destruct (Point_init (get_values record)) as [p|e]; split.
    + eauto.
    + eauto.
    + by intros [? ?].
    + by intros [? ?].
  - split; [by intros [? ?]|done].
Qed.

Lemma filter_has_point_fields (records : list event) :
  filter has_point_fields records = filter well_formed records.
Proof.
  induction records as [|ev records IH]; [done|].
  rewrite !filter_cons, IH.
  destruct (decide (has_point_fields ev)) as [H|H],
           (decide (well_formed ev)) as [H'|H']; try done.
  - by apply well_formed_has_point_fields in H.
  - by apply well_formed_has_point_fields in H'.
Qed.

(** The stream of a container goes up to its first corrupt record. *)
Lemma get_messages_first_error (before after : list event) e :
  Forall (λ ev, ∃ record, ev = Yield record) before →
  get_messages (before ++ Raise e :: after) = before ++ [Raise e].
Proof.
  induction 1 as [|ev before [record ->] _ IH]; [done|].
  simpl. by rewrite IH.
Qed.

(** C1: [read_fit_file] is not resilient to a corrupt record (where the
    specification has all N well-formed records of the container
    returned, wherever the malformed ones are).  When the decoder raises
    on a record, the generator of the record stream is finished: the
    points returned are those of the well-formed records before the first
    such record, each with the values of its record and in their order,
    and every well-formed record after it is lost. *)
Theorem read_fit_file_stops_at_decoding_error fitparse_FitFile
    (path data : string) (before after : list event) (e : exn) (w : world) :
  files w !! path = Some data →
  fitparse_FitFile data = Ok (get_messages (before ++ Raise e :: after)) →
  Forall (λ ev, ∃ record, ev = Yield record) before →
  ∃ points w',
    read_fit_file fitparse_FitFile (Some path) w = (Ok points, w')
    ∧ Forall2 (λ ev p, ∃ record,
                 ev = Yield record ∧ get_values record = asdict p)
        (filter has_point_fields before) points
    ∧ (length points + length (filter has_point_fields after)
       = length (filter has_point_fields (before ++ Raise e :: after)))%nat
    ∧ (Exists has_point_fields after →
       (length points
        < length (filter has_point_fields (before ++ Raise e :: after)))%nat).
Proof.
  intros Hfile Hopen Hbefore.
  rewrite get_messages_first_error in Hopen by done.
  assert (Hpoints : omap accepted (before ++ [Raise e])
                    = omap accepted before).
  { rewrite omap_app. simpl. by rewrite app_nil_r. }
  assert (Hlen : (length (omap accepted before)
                  + length (filter has_point_fields after)
                  = length (filter has_point_fields
                              (before ++ Raise e :: after)))%nat).
  { rewrite filter_app, filter_cons, decide_False by (simpl; tauto).
    rewrite length_app, length_omap_accepted.
    by rewrite !filter_has_point_fields. }
  exists (omap accepted before), (add_log (read_log (before ++ [Raise e])) w).
  split_and!.
  - rewrite <- Hpoints. by apply (read_fit_file_run _ _ data).
  - rewrite filter_has_point_fields.
    eapply Forall2_impl; [apply accepted_filter_Forall2|].
    intros [record|e'] p Hacc; [|done]. exists record. split; [done|].
    simpl in Hacc.
    destruct (Point_init (get_values record)) as [p'|] eqn:Hp; [|done].
    injection Hacc as ->. by apply Point_init_Ok.
  - done.
  - intros Hex. rewrite <- Hlen.
    enough (0 < length (filter has_point_fields after))%nat by lia.
    apply Exists_exists in Hex as (ev & Hin & Hev).
    assert (Hf : ev ∈ filter has_point_fields after)
      by (by apply list_elem_of_filter).
    destruct (filter has_point_fields after); [by apply elem_of_nil in Hf|].
    simpl. lia.
Qed.

(** C7: a raw record is accepted exactly when [Point] can be constructed
    from its dictionary, which is when the dictionary has the nine field
    names and no other; a record with any other set of names is dropped,
    and an accepted point holds the values of its record in every field. *)
Theorem accepted_iff_constructed fitparse_FitFile (path data : string)
    (records : list event) (w : world) :
  files w !! path = Some data →
  fitparse_FitFile data = Ok records →
  ∃ points w',
    read_fit_file fitparse_FitFile (Some path) w = (Ok points, w')
    ∧ (∀ p, p ∈ points ↔
            ∃ record, Yield record ∈ records
                      ∧ Point_init (get_values record) = Ok p)
    ∧ (∀ record p, Point_init (get_values record) = Ok p ↔
                   get_values record = asdict p)
    ∧ (∀ record, dom (get_values record) ≠ list_to_set Point_fields →
                 Point_init (get_values record) = Err TypeError
                 ∧ accepted (Yield record) = None).
Proof.
  intros Hfile Hopen.
  exists (omap accepted records), (add_log (read_log records) w).
  split_and!.
  - by apply (read_fit_file_run _ _ data).
  - intros p. rewrite list_elem_of_omap. split.
    + intros ([record|e] & Hin & Hacc); [|done]. exists record.
      split; [done|]. simpl in Hacc.
      destruct (Point_init (get_values record)); congruence.
    + intros (record & Hin & Hp). exists (Yield record).
      split; [done|]. simpl. by rewrite Hp.
  - intros record p. apply Point_init_Ok.
  - intros record Hdom.
    destruct (Point_init (get_values record)) as [p|e] eqn:Hp.
    + exfalso. apply Hdom, Point_init_names. eauto.
    + apply Point_init_Err in Hp as Hp'. subst e.
      split; [done|]. simpl. by rewrite Hp.
Qed.

Lemma output_point_filter_Forall2 (table : list (gmap string value)) :
  Forall typed_timestamp table →
  Forall2 (λ row p, output_point row = Some p)
    (filter survives table) (omap output_point table).
Proof.
  induction 1 as [|row table Hrow _ IH]; [constructor|].
  rewrite filter_cons, omap_cons_eq. case_decide as Hs.
  - destruct (output_point_Some row Hrow Hs) as [p Hp]. rewrite Hp.
    by constructor.
  - by rewrite output_point_None.
Qed.

(** C2: for every semicircle value [s] of the signed 32-bit range (and
    for [2^31]), the float that [semicircle_to_degrees] computes is the
    number [s * 180 / 2^31] with no rounding error; and [2^31] gives
    [180.0], [0] gives [0.0], [-2^31] gives [-180.0]. *)
Theorem semicircle_to_degrees_exact (s : Z) :
  - 2 ^ 31 ≤ s ≤ 2 ^ 31 →
  (∃ q, float_to_Q (semicircle_to_degrees s) = Some q
        ∧ (q == inject_Z (s * 180) / inject_Z (2 ^ 31))%Q)
  ∧ semicircle_to_degrees (2 ^ 31) = 180%float
  ∧ semicircle_to_degrees 0 = 0%float
  ∧ semicircle_to_degrees (- 2 ^ 31) = (-180)%float.
Proof.
  intros Hs. split_and!.
  - apply semicircle_to_degrees_value.
    change (2 ^ 31) with 2147483648 in Hs.
    change (2 ^ 47) with 140737488355328. lia.
  - vm_compute. reflexivity.
  - vm_compute. reflexivity.
  - vm_compute. reflexivity.
Qed.

Section SerializerClaims.

Variable pd_Timestamp : value → result datetime.
Hypothesis pd_Timestamp_datetime : ∀ t, pd_Timestamp (VDatetime t) = Ok t.

(** C3: on a normalized table, a row with a null latitude, longitude or
    timestamp gives no point of the document, a row with none of them null
    gives exactly one, made of its three cells, and the points are in the
    order of their rows. *)
Theorem pdf_to_gpx_filters_rows (df : loc) (d : DataFrame) (w : world) :
  heap w !! df = Some (ODataFrame d) →
  normalized d →
  ∃ gpx w' pts,
    pdf_to_gpx pd_Timestamp df w = (Ok gpx, w')
    ∧ document_at (heap w') gpx = Some (mkGPX [mkTrack [mkSegment pts]])
    ∧ pts = omap output_point (rows d)
    ∧ Forall2 (λ row p, output_point row = Some p)
        (filter survives (rows d)) pts
    ∧ (∀ row, row ∈ rows d →
         isna (cell row "latitude") = true
         ∨ isna (cell row "longitude") = true
         ∨ isna (cell row "timestamp") = true →
         output_point row = None)
    ∧ (∀ row, row ∈ rows d →
         isna (cell row "latitude") = false →
         isna (cell row "longitude") = false →
         isna (cell row "timestamp") = false →
         ∃ p, output_point row = Some p
              ∧ latitude p = cell row "latitude"
              ∧ longitude p = cell row "longitude"
              ∧ VDatetime (time p) = cell row "timestamp").
Proof.
  intros Hdf Hnorm.
  destruct (wp_run _ _ _ (pdf_to_gpx_document pd_Timestamp
                            pd_Timestamp_datetime df d w Hdf Hnorm))
    as (r & w' & Hrun & gpx & -> & Hdoc & _).
  exists gpx, w', (omap output_point (rows d)). split_and!; try done.
  - apply output_point_filter_Forall2, Hnorm.
  - intros row _ Hnull. apply output_point_None. rewrite survives_iff.
    intros (? & ? & ?). destruct Hnull as [|[|]]; congruence.
  - intros row Hrow Hla Hlo Hts.
    destruct Hnorm as [_ Htyped].
    eapply Forall_forall in Htyped; [|done].
    unfold output_point. rewrite decide_True by (by apply survives_iff).
    apply typed_timestamp_cases in Htyped as [Hn|[t Ht]];
    [by rewrite Hn in Hts|].
    rewrite Ht. by eexists.
Qed.

(** C5: whatever the table, a document that [pdf_to_gpx] returns has
    exactly one track, which has exactly one segment, which has as many
    points as rows survive the filter (none, some or all of them); and on
    a normalized table [pdf_to_gpx] does return a document. *)
Theorem pdf_to_gpx_one_track_one_segment (df : loc) (d : DataFrame)
    (w : world) :
  heap w !! df = Some (ODataFrame d) →
  (∀ gpx w', pdf_to_gpx pd_Timestamp df w = (Ok gpx, w') →
     ∃ doc track segment,
       document_at (heap w') gpx = Some doc
       ∧ tracks doc = [track]
       ∧ segments track = [segment]
       ∧ length (points segment) = length (filter survives (rows d)))
  ∧ (normalized d →
     ∃ gpx w', pdf_to_gpx pd_Timestamp df w = (Ok gpx, w')).
Proof.
  intros Hdf. split.
  - intros gpx w' Hrun.
    pose proof (pdf_to_gpx_outcome pd_Timestamp df _ w Hdf) as Hwp.
    unfold wp in Hwp. rewrite Hrun in Hwp. simpl in Hwp.
    destruct Hwp as (_ & d' & pts & [= <-] & _ & Hdoc & Hlen).
    by exists (mkGPX [mkTrack [mkSegment pts]]), (mkTrack [mkSegment pts]),
              (mkSegment pts).
  - intros Hnorm.
    destruct (wp_run _ _ _ (pdf_to_gpx_document pd_Timestamp
                              pd_Timestamp_datetime df d w Hdf Hnorm))
      as (r & w' & Hrun & gpx & -> & _). eauto.
Qed.

End SerializerClaims.

(** C10: [pdf_to_gpx] leaves the table it is given as it was.  However
    the call ends, the object at [df] is the same table afterwards, with
    all its rows, those with a null latitude, longitude or timestamp
    included: the rows are filtered in new tables. *)
Theorem pdf_to_gpx_leaves_table pd_Timestamp (df : loc) (d : DataFrame)
    (w : world) :
  heap w !! df = Some (ODataFrame d) →
  ∃ r w', pdf_to_gpx pd_Timestamp df w = (r, w')
          ∧ heap w' !! df = Some (ODataFrame d)
          ∧ files w' = files w.
Proof.
  intros Hdf.
  destruct (wp_run _ _ _ (pdf_to_gpx_outcome pd_Timestamp df _ w Hdf))
    as (r & w' & Hrun & (Hdf' & Hfiles & _) & _).
  by exists r, w'.
Qed.

Section NormalizerClaims.

Variable to_datetime : value → option datetime.

Lemma isna_degrees (v : value) :
  numeric v → isna v = true → isna (degrees v) = true.
Proof.
  destruct v as [|n|x|s|t]; try done.
  intros _ Hx. simpl in *. by apply div_nan.
Qed.

(** The normalizer on a list that is not empty: one row per record, in
    order, and a null position gives a null coordinate in its row. *)
Lemma points_to_pdf_rows (points : list Point) (w : world) :
  points ≠ [] →
  Forall numeric_position points →
  ∃ df w',
    points_to_pdf to_datetime points w = (Ok df, w')
    ∧ heap w' !! df = Some (ODataFrame (normalized_table to_datetime points))
    ∧ files w' = files w ∧ log w' = log w
    ∧ length (rows (normalized_table to_datetime points)) = length points
    ∧ (∀ i p, points !! i = Some p →
         ∃ row, rows (normalized_table to_datetime points) !! i = Some row
                ∧ (isna (position_lat p) = true →
                   isna (cell row "latitude") = true)
                ∧ (isna (position_long p) = true →
                   isna (cell row "longitude") = true)).
Proof.
  intros Hne Hnum.
  destruct (wp_run _ _ _ (points_to_pdf_table to_datetime points w Hne Hnum))
    as (r & w' & Hrun & df & -> & Hfresh & ->).
  exists df, (set_heap (insert df (ODataFrame (normalized_table to_datetime
                                                  points))) w).
  split_and!; try done.
  - simpl. by rewrite lookup_insert_eq.
  - simpl. by rewrite length_fmap.
  - intros i p Hp. exists (normalize to_datetime (asdict p)).
    split; [simpl; by rewrite list_lookup_fmap, Hp|].
    eapply Forall_lookup in Hnum as [Hla Hlo]; [|done].
    destruct (normalize_cells to_datetime (asdict p)) as (_ & -> & ->).
    destruct (asdict_cells p) as (_ & -> & ->).
    split; by apply isna_degrees.
Qed.

(** C6: on the empty sequence of Point Records the normalizer returns no
    table (where the specification has one row per record for every
    sequence): the table of an empty list has no column, and reading the
    timestamp column raises [KeyError]. *)
Theorem points_to_pdf_no_records (w : world) :
  ∃ w', points_to_pdf to_datetime [] w
        = (Err (KeyError ["timestamp"%string]), w')
        ∧ files w' = files w.
Proof.
  destruct (wp_run _ _ _ (points_to_pdf_empty to_datetime w))
    as (r & w' & Hrun & -> & Hfiles & _).
  by exists w'.
Qed.

Lemma omap_output_point_normalized (points : list Point) :
  omap output_point (rows (normalized_table to_datetime points))
  = omap (track_point to_datetime) points.
Proof.
  simpl. induction points as [|p points IH]; [done|].
  rewrite fmap_cons, !omap_cons_eq, IH. done.
Qed.

Variable pd_Timestamp : value → result datetime.
Hypothesis pd_Timestamp_datetime : ∀ t, pd_Timestamp (VDatetime t) = Ok t.

(** The normalizer followed by the serializer. *)
Lemma points_to_gpx (points : list Point) (w : world) :
  points ≠ [] →
  Forall numeric_position points →
  ∃ df w1 gpx w2,
    points_to_pdf to_datetime points w = (Ok df, w1)
    ∧ heap w1 !! df = Some (ODataFrame (normalized_table to_datetime points))
    ∧ pdf_to_gpx pd_Timestamp df w1 = (Ok gpx, w2)
    ∧ document_at (heap w2) gpx
      = Some (mkGPX [mkTrack [mkSegment
                                (omap (track_point to_datetime) points)]])
    ∧ files w2 = files w ∧ log w2 = log w.
Proof.
  intros Hne Hnum.
  destruct (points_to_pdf_rows points w Hne Hnum)
    as (df & w1 & Hrun1 & Hdf & Hfiles & Hlog & _).
  destruct (wp_run _ _ _ (pdf_to_gpx_document pd_Timestamp
              pd_Timestamp_datetime df _ w1 Hdf
              (normalized_table_normalized to_datetime points)))
    as (r & w2 & Hrun2 & gpx & -> & Hdoc & _ & Hfiles2 & Hlog2).
  exists df, w1, gpx, w2. rewrite omap_output_point_normalized in Hdoc.
  split_and!; try done; congruence.
Qed.

(** C8: a row whose timestamp cannot be read as a date-time gets a null
    timestamp in the normalized table, the normalizer does not raise for
    it, and the document has the points of the other rows only. *)
Theorem invalid_timestamp_row_dropped (before after : list Point)
    (p : Point) (w : world) :
  to_datetime (timestamp p) = None →
  Forall numeric_position (before ++ p :: after) →
  ∃ df w1 gpx w2 row,
    points_to_pdf to_datetime (before ++ p :: after) w = (Ok df, w1)
    ∧ heap w1 !! df
      = Some (ODataFrame (normalized_table to_datetime
                            (before ++ p :: after)))
    ∧ rows (normalized_table to_datetime (before ++ p :: after))
        !! length before = Some row
    ∧ cell row "timestamp" = VNone
    ∧ pdf_to_gpx pd_Timestamp df w1 = (Ok gpx, w2)
    ∧ document_at (heap w2) gpx
      = Some (mkGPX [mkTrack [mkSegment
                (omap (track_point to_datetime) before
                 ++ omap (track_point to_datetime) after)]]).
Proof.
  intros Hts Hnum.
  destruct (points_to_gpx (before ++ p :: after) w)
    as (df & w1 & gpx & w2 & Hrun1 & Hdf & Hrun2 & Hdoc & _);
    [by destruct before|done|].
  exists df, w1, gpx, w2, (normalize to_datetime (asdict p)).
  split_and!; try done.
  - simpl. rewrite list_lookup_fmap, list_lookup_middle; done.
  - destruct (normalize_cells to_datetime (asdict p)) as (-> & _ & _).
    destruct (asdict_cells p) as (-> & _ & _).
    unfold to_datetime_coerce. by rewrite Hts.
  - rewrite Hdoc, omap_app, omap_cons_eq.
    by rewrite track_point_None_timestamp.
Qed.

End NormalizerClaims.

Section MainClaims.

Variable fitparse_FitFile : string → result (list event).
Variable to_datetime : value → option datetime.
Variable pd_Timestamp : value → result datetime.
Variable to_xml : GPX → string.
Variable parse_args : list string → result (option string * option string).

(** C4: on an input container that opens and has no record, [main] ends
    in the [KeyError] of the normalizer and writes no file (where the
    specification has a document with one track, one segment and no
    point). *)
Theorem main_empty_container (args : list string) (path data : string)
    (out : option string) (w : world) :
  parse_args args = Ok (Some path, out) →
  files w !! path = Some data →
  fitparse_FitFile data = Ok [] →
  ∃ w', main fitparse_FitFile to_datetime pd_Timestamp to_xml parse_args
          args w = (Err (KeyError ["timestamp"%string]), w')
        ∧ files w' = files w.
Proof.
  intros Hargs Hfile Hopen.
  enough (Hwp : wp (main fitparse_FitFile to_datetime pd_Timestamp to_xml
                      parse_args args) w
                  (λ r w', r = Err (KeyError ["timestamp"%string])
                           ∧ files w' = files w)).
  { destruct (wp_run _ _ _ Hwp) as (r & w' & Hrun & -> & Hfiles).
    by exists w'. }
  unfold main. apply wp_bind, wp_lift. rewrite Hargs.
  apply wp_bind, wp_ret, wp_bind. unfold wp at 1. simpl fst.
  rewrite (read_fit_file_run _ _ data []) by done. simpl.
  apply wp_bind. eapply wp_mono; [|apply points_to_pdf_empty].
  intros r w' (-> & Hfiles & _). done.
Qed.

(** C9: when the input cannot be opened as a container, [main] ends in
    that exception and the world is as it was: the output path has not
    been opened and no file has been written. *)
Theorem main_container_open_error (args : list string)
    (fit out : option string) (e : exn) (w : world) :
  parse_args args = Ok (fit, out) →
  (FitFile fitparse_FitFile fit w).1 = Err e →
  main fitparse_FitFile to_datetime pd_Timestamp to_xml parse_args args w
  = (Err e, w).
Proof.
  intros Hargs Hopen. unfold main, bind, lift. rewrite Hargs. simpl.
  unfold read_fit_file, bind.
  destruct (FitFile fitparse_FitFile fit w) as [r w'] eqn:Hfit.
  simpl in Hopen. subst r. f_equal.
  unfold FitFile in Hfit. destruct fit as [path|]; [|congruence].
  destruct (files w !! path); congruence.
Qed.

End MainClaims.

(** * The claims on the small ride *)

(** The extractor keeps A and C. *)
Lemma ride_points :
  (read_fit_file ride_fitparse (Some "ride.fit"%string) ride_world).1
  = Ok [record_A; record_C].
Proof. vm_compute. reflexivity. Qed.

(** The whole pipeline on the ride: one track, one segment, and the one
    point of A; C has no date and B is not a [Point]. *)
Lemma ride_document :
  (let (r, w') :=
     (do points <- read_fit_file ride_fitparse (Some "ride.fit"%string);
      do df <- points_to_pdf ride_to_datetime points;
      pdf_to_gpx ride_Timestamp df) ride_world in
   match r with
   | Ok gpx => document_at (heap w') gpx
   | Err _ => None
   end)
  = Some (mkGPX [mkTrack [mkSegment
            [mkGPXTrackPoint
               (VFloat (semicircle_to_degrees 612553967))
               (VFloat (semicircle_to_degrees (-1193046)))
               1600000000000000000]]]).
Proof. vm_compute. reflexivity. Qed.

(** [main] on the ride ends normally, with the printed document in the
    output file and the three lines of the extractor in the log. *)
Lemma ride_main :
  (let (r, w') :=
     main ride_fitparse ride_to_datetime ride_Timestamp ride_to_xml
       ride_parse_args ["ride.fit"; "out.gpx"]%string ride_world in
   (r, files w' !! "out.gpx"%string, log w'))
  = (Ok tt, Some "<gpx/>"%string,
     ["Error in record, continuing"; "Error in record, continuing";
      "Read all records in FIT file."]%string).
Proof. vm_compute. reflexivity. Qed.

(** With a corrupt record between A and C, C is lost. *)
Lemma gap_points :
  (read_fit_file gap_fitparse (Some "ride.fit"%string) ride_world).1
  = Ok [record_A]
  ∧ length (filter has_point_fields gap_container) = 2%nat.
Proof. split; vm_compute; reflexivity. Qed.

Lemma read_fit_file_stops_at_decoding_error_gap :
  ∃ points w',
    read_fit_file gap_fitparse (Some "ride.fit"%string) ride_world
    = (Ok points, w')
    ∧ Forall2 (λ ev p, ∃ record,
                 ev = Yield record ∧ get_values record = asdict p)
        (filter has_point_fields [Yield (mkMessage (asdict record_A))])
        points
    ∧ (length points
       + length (filter has_point_fields
                   [Yield (mkMessage (asdict record_C))])
       = length (filter has_point_fields
                   ([Yield (mkMessage (asdict record_A))]
                    ++ Raise FitParseError
                    :: [Yield (mkMessage (asdict record_C))])))%nat
    ∧ (Exists has_point_fields [Yield (mkMessage (asdict record_C))] →
       (length points
        < length (filter has_point_fields
                    ([Yield (mkMessage (asdict record_A))]
                     ++ Raise FitParseError
                     :: [Yield (mkMessage (asdict record_C))])))%nat).
Proof.
  apply (read_fit_file_stops_at_decoding_error gap_fitparse "ride.fit"
           "ride").
  - reflexivity.
  - reflexivity.
  - repeat econstructor.
Defined.

Lemma accepted_iff_constructed_ride :
  ∃ points w',
    read_fit_file ride_fitparse (Some "ride.fit"%string) ride_world
    = (Ok points, w')
    ∧ (∀ p, p ∈ points ↔
            ∃ record, Yield record ∈ ride_stream
                      ∧ Point_init (get_values record) = Ok p)
    ∧ (∀ record p, Point_init (get_values record) = Ok p ↔
                   get_values record = asdict p)
    ∧ (∀ record, dom (get_values record) ≠ list_to_set Point_fields →
                 Point_init (get_values record) = Err TypeError
                 ∧ accepted (Yield record) = None).
Proof.
  apply (accepted_iff_constructed ride_fitparse "ride.fit" "ride");
    reflexivity.
Defined.

Lemma semicircle_to_degrees_exact_ride :
  (∃ q, float_to_Q (semicircle_to_degrees 612553967) = Some q
        ∧ (q == inject_Z (612553967 * 180) / inject_Z (2 ^ 31))%Q)
  ∧ semicircle_to_degrees (2 ^ 31) = 180%float
  ∧ semicircle_to_degrees 0 = 0%float
  ∧ semicircle_to_degrees (- 2 ^ 31) = (-180)%float.
Proof. apply (semicircle_to_degrees_exact 612553967). simpl. lia. Defined.

Lemma pdf_to_gpx_filters_rows_ride :
  ∃ gpx w' pts,
    pdf_to_gpx ride_Timestamp 1%positive table_world = (Ok gpx, w')
    ∧ document_at (heap w') gpx = Some (mkGPX [mkTrack [mkSegment pts]])
    ∧ pts = omap output_point (rows ride_table)
    ∧ Forall2 (λ row p, output_point row = Some p)
        (filter survives (rows ride_table)) pts
    ∧ (∀ row, row ∈ rows ride_table →
         isna (cell row "latitude") = true
         ∨ isna (cell row "longitude") = true
         ∨ isna (cell row "timestamp") = true →
         output_point row = None)
    ∧ (∀ row, row ∈ rows ride_table →
         isna (cell row "latitude") = false →
         isna (cell row "longitude") = false →
         isna (cell row "timestamp") = false →
         ∃ p, output_point row = Some p
              ∧ latitude p = cell row "latitude"
              ∧ longitude p = cell row "longitude"
              ∧ VDatetime (time p) = cell row "timestamp").
Proof.
  apply (pdf_to_gpx_filters_rows ride_Timestamp).
  - reflexivity.
  - reflexivity.
  - split; [by apply (bool_decide_unpack _)|repeat constructor].
Defined.

Lemma pdf_to_gpx_one_track_one_segment_ride :
  (∀ gpx w',
     pdf_to_gpx ride_Timestamp 1%positive table_world = (Ok gpx, w') →
     ∃ doc track segment,
       document_at (heap w') gpx = Some doc
       ∧ tracks doc = [track]
       ∧ segments track = [segment]
       ∧ length (points segment)
         = length (filter survives (rows ride_table)))
  ∧ (normalized ride_table →
     ∃ gpx w',
       pdf_to_gpx ride_Timestamp 1%positive table_world = (Ok gpx, w')).
Proof.
  apply (pdf_to_gpx_one_track_one_segment ride_Timestamp).
  - reflexivity.
  - reflexivity.
Defined.

(** The table of the ride has the row of C, with its null timestamp, before
    and after the call. *)
Lemma pdf_to_gpx_leaves_table_ride :
  ∃ r w', pdf_to_gpx ride_Timestamp 1%positive table_world = (r, w')
          ∧ heap w' !! 1%positive = Some (ODataFrame ride_table)
          ∧ files w' = files table_world.
Proof. apply (pdf_to_gpx_leaves_table ride_Timestamp). reflexivity. Defined.

Lemma invalid_timestamp_row_dropped_ride :
  ∃ df w1 gpx w2 row,
    points_to_pdf ride_to_datetime ([record_A] ++ record_C :: []) ride_world
    = (Ok df, w1)
    ∧ heap w1 !! df
      = Some (ODataFrame (normalized_table ride_to_datetime
                            ([record_A] ++ record_C :: [])))
    ∧ rows (normalized_table ride_to_datetime
              ([record_A] ++ record_C :: []))
        !! length [record_A] = Some row
    ∧ cell row "timestamp" = VNone
    ∧ pdf_to_gpx ride_Timestamp df w1 = (Ok gpx, w2)
    ∧ document_at (heap w2) gpx
      = Some (mkGPX [mkTrack [mkSegment
                (omap (track_point ride_to_datetime) [record_A]
                 ++ omap (track_point ride_to_datetime) [])]]).
Proof.
  apply (invalid_timestamp_row_dropped ride_to_datetime ride_Timestamp).
  - reflexivity.
  - reflexivity.
  - repeat constructor.
Defined.

Lemma main_empty_container_ride :
  ∃ w', main ride_fitparse ride_to_datetime ride_Timestamp ride_to_xml
          ride_parse_args ["empty.fit"; "out.gpx"]%string ride_world
        = (Err (KeyError ["timestamp"%string]), w')
        ∧ files w' = files ride_world.
Proof.
  apply (main_empty_container ride_fitparse ride_to_datetime ride_Timestamp
           ride_to_xml ride_parse_args _ "empty.fit" ""%string
           (Some "out.gpx"%string));
    reflexivity.
Defined.

Lemma main_container_open_error_ride :
  main ride_fitparse ride_to_datetime ride_Timestamp ride_to_xml
    ride_parse_args ["broken.fit"; "out.gpx"]%string ride_world
  = (Err FitParseError, ride_world).
Proof.
  apply (main_container_open_error ride_fitparse ride_to_datetime
           ride_Timestamp ride_to_xml ride_parse_args _
           (Some "broken.fit"%string) (Some "out.gpx"%string));
    reflexivity.
Defined.

(** * Further properties of the code *)

(** ** The degrees as a float: sign, mantissa and exponent *)

Lemma pow2_window (p n n' a : Z) :
  0 < p → 0 ≤ n → 0 ≤ n' →
  a ≤ p * 2 ^ n < 2 * a → a ≤ p * 2 ^ n' < 2 * a → n = n'.
Proof.
  intros Hp Hn Hn' H H'.
  assert (Hlt : ∀ i k, 0 ≤ i → i < k → 2 * 2 ^ i ≤ 2 ^ k).
  { intros i k Hi Hik. rewrite <- Z.pow_succ_r by done.
    apply Z.pow_le_mono_r; lia. }
  destruct (Z.lt_trichotomy n n') as [Hc|[Hc|Hc]]; [|done|].
  - pose proof (Hlt n n' Hn Hc). nia.
  - pose proof (Hlt n' n Hn' Hc). nia.
Qed.

(** The degrees of [p] and of [-p] semicircles have the mantissa
    [45 p 2^j] of 53 bits and the exponent [-(j + 29)]. *)
Lemma semicircle_to_degrees_SF (p : positive) :
  Zpos p < 2 ^ 47 →
  ∃ (m : positive) (j : Z),
    0 ≤ j ≤ 47
    ∧ Zpos m = 45 * Zpos p * 2 ^ j
    ∧ 2 ^ 52 ≤ Zpos m < 2 ^ 53
    ∧ ∀ sx : bool,
        Prim2SF (semicircle_to_degrees (if sx then Zneg p else Zpos p))
        = S754_finite sx m (- (j + 29)).
Proof.
  intros Hp.
  destruct (float_of_Z_shape false p Hp) as (mx & n & Hf & Hn & Hmx & Ht).
  destruct (float_of_Z_shape true p Hp) as (mx' & n' & Hf' & Hn' & Hmx' & Ht').
  assert (n' = n).
  { apply (pow2_window (Zpos p) n' n (2 ^ 47));
      change (2 * 2 ^ 47) with (2 ^ 48); lia. }
  subst n'. assert (mx' = mx) by lia. subst mx'.
  assert (Hdiv : ∀ sx : bool,
            Prim2SF (semicircle_to_degrees (if sx then Zneg p else Zpos p))
            = if 45 * (Zpos p * 2 ^ n) <? 2 ^ 53
              then S754_finite sx (Z.to_pos (45 * (Zpos p * 2 ^ n)))
                     (- (n + 5) - 24)
              else S754_finite sx (Z.to_pos (45 * (Zpos p * 2 ^ n) / 2))
                     (- (n + 5) - 23)).
  { intros sx. unfold semicircle_to_degrees.
    rewrite FloatAxioms.div_spec, divisor_spec. unfold SF64div.
    replace (Prim2SF (float_of_Z (if sx then Zneg p else Zpos p)))
      with (S754_finite sx mx (- (n + 5))) by (by destruct sx).
    apply SFdiv_divisor; [done|done| |lia].
    rewrite Z.even_mul, Z.even_pow by lia. apply orb_true_r. }
  change (2 ^ 47) with 140737488355328 in Ht.
  change (2 ^ 48) with 281474976710656 in Ht.
  change (2 ^ 52) with 4503599627370496.
  change (2 ^ 53) with 9007199254740992 in *.
  destruct (Z.ltb_spec (45 * (Zpos p * 2 ^ n)) 9007199254740992) as [Hlt|Hge].
  - exists (Z.to_pos (45 * (Zpos p * 2 ^ n))), n.
    rewrite Z2Pos.id by lia. split_and!; try lia.
    intros sx. rewrite Hdiv. f_equal; lia.
  - assert (Hhalf : 45 * (Zpos p * 2 ^ n) / 2 = 45 * Zpos p * 2 ^ (n - 1)).
    { replace n with (Z.succ (n - 1)) at 1 by lia.
      rewrite Z.pow_succ_r by lia.
      replace (45 * (Zpos p * (2 * 2 ^ (n - 1))))
        with (45 * Zpos p * 2 ^ (n - 1) * 2) by lia.
      apply Z.div_mul. lia. }
    assert (Hpow : 2 ^ n = 2 * 2 ^ (n - 1)).
    { replace n with (Z.succ (n - 1)) at 1 by lia.
      by rewrite Z.pow_succ_r by lia. }
    assert (0 < 2 ^ (n - 1)) by (apply Z.pow_pos_nonneg; lia).
    exists (Z.to_pos (45 * (Zpos p * 2 ^ n) / 2)), (n - 1).
    rewrite Hhalf, Z2Pos.id by lia. split_and!; try lia.
    intros sx. rewrite Hdiv. f_equal; lia.
Qed.

Lemma semicircle_to_degrees_zero :
  Prim2SF (semicircle_to_degrees 0) = S754_zero false.
Proof. vm_compute. reflexivity. Qed.

(** Two mantissas of 53 bits with their exponents are in the order of the
    numbers they stand for. *)
Lemma compare_normal (p p' m m' : positive) (j j' : Z) :
  0 ≤ j → 0 ≤ j' →
  Zpos m = 45 * Zpos p * 2 ^ j → Zpos m' = 45 * Zpos p' * 2 ^ j' →
  2 ^ 52 ≤ Zpos m < 2 ^ 53 → 2 ^ 52 ≤ Zpos m' < 2 ^ 53 →
  match - (j + 29) ?= - (j' + 29) with
  | Lt => Lt
  | Gt => Gt
  | Eq => Pos.compare_cont Eq m m'
  end = (p ?= p')%positive.
Proof.
  intros Hj Hj' Hm Hm' Hb Hb'.
  change (2 ^ 52) with 4503599627370496 in *.
  change (2 ^ 53) with 9007199254740992 in *.
  assert (Hpow : ∀ i k, 0 ≤ i → i < k → 2 * 2 ^ i ≤ 2 ^ k).
  { intros i k Hi Hik. rewrite <- Z.pow_succ_r by done.
    apply Z.pow_le_mono_r; lia. }
  assert (0 < 2 ^ j) by (apply Z.pow_pos_nonneg; lia).
  assert (0 < 2 ^ j') by (apply Z.pow_pos_nonneg; lia).
  destruct (Z.compare_spec (- (j + 29)) (- (j' + 29))) as [He|He|He].
  - assert (j' = j) by lia. subst j'.
    fold (Pos.compare m m').
    destruct (Pos.compare_spec p p') as [Hc|Hc|Hc].
    + subst p'. apply Pos.compare_eq_iff. lia.
    + apply Pos.compare_lt_iff. nia.
    + apply Pos.compare_gt_iff. nia.
  - symmetry. apply Pos.compare_lt_iff.
    pose proof (Hpow j' j Hj' ltac:(lia)).
    destruct (Pos.lt_total p p') as [Hc|[Hc|Hc]]; [done|subst p'; nia|nia].
  - symmetry. apply Pos.compare_gt_iff.
    pose proof (Hpow j j' Hj ltac:(lia)).
    destruct (Pos.lt_total p p') as [Hc|[Hc|Hc]]; [nia|subst p'; nia|done].
Qed.

(** Float comparison of the degrees is integer comparison of the
    semicircles. *)
Lemma semicircle_to_degrees_compare (s s' : Z) :
  - 2 ^ 47 < s < 2 ^ 47 → - 2 ^ 47 < s' < 2 ^ 47 →
  SFcompare (Prim2SF (semicircle_to_degrees s))
    (Prim2SF (semicircle_to_degrees s'))
  = Some (s ?= s').
Proof.
  intros Hs Hs'.
  assert (Hsf : ∀ z, - 2 ^ 47 < z < 2 ^ 47 →
            match z with
            | 0 => Prim2SF (semicircle_to_degrees z) = S754_zero false
            | Zpos p | Zneg p =>
                ∃ (m : positive) (j : Z),
                  0 ≤ j ∧ Zpos m = 45 * Zpos p * 2 ^ j
                  ∧ 2 ^ 52 ≤ Zpos m < 2 ^ 53
                  ∧ Prim2SF (semicircle_to_degrees z)
                    = S754_finite (bool_decide (z < 0)) m (- (j + 29))
            end).
  { intros [|p|p] Hz; [apply semicircle_to_degrees_zero| |].
    - destruct (semicircle_to_degrees_SF p) as (m & j & Hj & Hm & Hb & Hf);
        [lia|].
      exists m, j. split_and!; try done; try lia. apply (Hf false).
    - destruct (semicircle_to_degrees_SF p) as (m & j & Hj & Hm & Hb & Hf);
        [lia|].
      exists m, j. split_and!; try done; try lia. apply (Hf true). }
  pose proof (Hsf s Hs) as H. pose proof (Hsf s' Hs') as H'.
  destruct s as [|p|p], s' as [|p'|p'];
    try destruct H as (m & j & Hj & Hm & Hb & H);
    try destruct H' as (m' & j' & Hj' & Hm' & Hb' & H');
    rewrite ?H, ?H'; try done.
  - simpl. f_equal. by apply compare_normal.
  - simpl. f_equal.
    rewrite <- (compare_normal p p' m m' j j') by done.
    by destruct (_ ?= _).
Qed.

(** X1: on semicircle values below [2^47] in magnitude, the float
    comparisons [<], [<=] and [==] of the degrees give what the integer
    comparisons of the semicircles give, and two values with the same
    degrees are the same value: the conversion keeps the order and loses
    no position. *)
Theorem semicircle_to_degrees_order (s s' : Z) :
  - 2 ^ 47 < s < 2 ^ 47 → - 2 ^ 47 < s' < 2 ^ 47 →
  PrimFloat.ltb (semicircle_to_degrees s) (semicircle_to_degrees s')
  = (s <? s')
  ∧ PrimFloat.leb (semicircle_to_degrees s) (semicircle_to_degrees s')
    = (s <=? s')
  ∧ PrimFloat.eqb (semicircle_to_degrees s) (semicircle_to_degrees s')
    = (s =? s')
  ∧ (semicircle_to_degrees s = semicircle_to_degrees s' → s = s').
Proof.
  intros Hs Hs'.
  pose proof (semicircle_to_degrees_compare s s' Hs Hs') as Hc.
  rewrite FloatAxioms.ltb_spec, FloatAxioms.leb_spec, FloatAxioms.eqb_spec.
  unfold SFltb, SFleb, SFeqb. rewrite Hc. split_and!.
  - done.
  - unfold Z.leb. by destruct (s ?= s').
  - destruct (Z.compare_spec s s') as [->|Hlt|Hgt].
    + by rewrite Z.eqb_refl.
    + symmetry. apply Z.eqb_neq. lia.
    + symmetry. apply Z.eqb_neq. lia.
  - intros Heq. rewrite Heq in Hc.
    rewrite (semicircle_to_degrees_compare s' s') in Hc by done.
    rewrite Z.compare_refl in Hc. apply Z.compare_eq. congruence.
Qed.

(** X2: the degrees of a semicircle value of the signed 32-bit range
    (and of [2^31]) lie between [-180.0] and [180.0], in float comparison. *)
Theorem semicircle_to_degrees_bounds (s : Z) :
  - 2 ^ 31 ≤ s ≤ 2 ^ 31 →
  PrimFloat.leb (-180)%float (semicircle_to_degrees s) = true
  ∧ PrimFloat.leb (semicircle_to_degrees s) 180%float = true.
Proof.
  intros Hs.
  change (2 ^ 31) with 2147483648 in Hs.
  assert (Hr : ∀ z, - 2147483648 ≤ z ≤ 2147483648 → - 2 ^ 47 < z < 2 ^ 47)
    by (intros z Hz; change (2 ^ 47) with 140737488355328; lia).
  replace 180%float with (semicircle_to_degrees 2147483648)
    by (vm_compute; reflexivity).
  replace (-180)%float with (semicircle_to_degrees (-2147483648))
    by (vm_compute; reflexivity).
  rewrite !FloatAxioms.leb_spec. unfold SFleb.
  rewrite !semicircle_to_degrees_compare by (apply Hr; lia).
  split.
  - destruct (Z.compare_spec (-2147483648) s); [done..|lia].
  - destruct (Z.compare_spec s 2147483648); [done..|lia].
Qed.

Lemma SFcompare_finite_refl sx m e :
  SFcompare (S754_finite sx m e) (S754_finite sx m e) = Some Eq.
Proof.
  simpl. rewrite Z.compare_refl.
  fold (Pos.compare m m). rewrite Pos.compare_refl. by destruct sx.
Qed.

(** X3: the degrees of [-s] compare equal to the negated degrees of [s],
    and for [s] other than zero they are the same float. *)
Theorem semicircle_to_degrees_odd (s : Z) :
  - 2 ^ 47 < s < 2 ^ 47 →
  PrimFloat.eqb (semicircle_to_degrees (- s))
    (- semicircle_to_degrees s)%float = true
  ∧ (s ≠ 0 →
     semicircle_to_degrees (- s) = (- semicircle_to_degrees s)%float).
Proof.
  intros Hs.
  assert (Hsf : s ≠ 0 →
            ∃ sx m e,
              Prim2SF (semicircle_to_degrees (- s)) = S754_finite sx m e
              ∧ Prim2SF (- semicircle_to_degrees s)%float
                = S754_finite sx m e).
  { intros Hne. rewrite FloatAxioms.opp_spec.
    destruct s as [|p|p]; [done| |];
      (destruct (semicircle_to_degrees_SF p) as (m & j & _ & _ & _ & Hf);
       [lia|]).
    - exists true, m, (- (j + 29)).
      by rewrite (Hf true : Prim2SF (semicircle_to_degrees (- Zpos p)) = _),
           (Hf false : Prim2SF (semicircle_to_degrees (Zpos p)) = _).
    - exists false, m, (- (j + 29)).
      by rewrite (Hf false : Prim2SF (semicircle_to_degrees (- Zneg p)) = _),
           (Hf true : Prim2SF (semicircle_to_degrees (Zneg p)) = _). }
  split.
  - destruct (decide (s = 0)) as [->|Hne]; [vm_compute; reflexivity|].
    destruct (Hsf Hne) as (sx & m & e & H1 & H2).
    rewrite FloatAxioms.eqb_spec, H1, H2. unfold SFeqb.
    by rewrite SFcompare_finite_refl.
  - intros Hne. destruct (Hsf Hne) as (sx & m & e & H1 & H2).
    apply Prim2SF_inj. congruence.
Qed.

(** ** The log of the extractor *)

Lemma fmap_const_replicate {A B} (x : B) (l : list A) :
  (λ _, x) <$> l = replicate (length l) x.
Proof. induction l; simpl; by f_equal. Qed.

Lemma length_malformed (records : list event) :
  length (filter (λ ev, ¬ well_formed ev) records)
  = (length records - length (omap accepted records))%nat.
Proof.
  pose proof (length_filter_split records).
  rewrite length_omap_accepted. lia.
Qed.

(** X4: for a container that opens, [read_fit_file] adds to the log one
    line "Error in record, continuing" per stream outcome that gave no
    point, and then the line "Read all records in FIT file." once, as the
    last line. *)
Theorem read_fit_file_log fitparse_FitFile (path data : string)
    (records : list event) (w : world) :
  files w !! path = Some data →
  fitparse_FitFile data = Ok records →
  ∃ points w',
    read_fit_file fitparse_FitFile (Some path) w = (Ok points, w')
    ∧ log w'
      = log w
        ++ replicate (length records - length points)
             "Error in record, continuing"%string
        ++ ["Read all records in FIT file."%string]
    ∧ readonly w' = readonly w.
Proof.
  intros Hfile Hopen.
  exists (omap accepted records), (add_log (read_log records) w).
  split_and!; [by apply (read_fit_file_run _ _ data)| |done].
  simpl. unfold read_log.
  by rewrite fmap_const_replicate, length_malformed.
Qed.

Lemma omap_accepted_none (records : list event) :
  Forall (λ ev, accepted ev = None) records →
  omap accepted records = []
  ∧ read_log records
    = replicate (length records) "Error in record, continuing"%string
      ++ ["Read all records in FIT file."%string].
Proof.
  intros Hnone.
  assert (Hnil : omap accepted records = []).
  { induction Hnone as [|ev records Hev _ IH]; [done|].
    by rewrite omap_cons_eq, Hev. }
  split; [done|]. unfold read_log.
  rewrite fmap_const_replicate, length_malformed, Hnil. simpl.
  by rewrite Nat.sub_0_r.
Qed.

(** ** What the two table functions leave alone *)

Lemma extends_refl w : extends w w.
Proof. by split. Qed.

Lemma extends_insert w0 w l o :
  extends w0 w → heap w0 !! l = None →
  extends w0 (set_heap (insert l o) w).
Proof.
  intros [] Hl. split; simpl; try done.
  intros l' o' Hl'. rewrite lookup_insert_ne; [auto|congruence].
Qed.

Lemma extends_fresh w0 w l :
  extends w0 w → heap w !! l = None → heap w0 !! l = None.
Proof.
  intros [H _ _ _] Hl. destruct (heap w0 !! l) eqn:E; [|done].
  apply H in E. congruence.
Qed.

Lemma extends_alloc w0 w l o :
  extends w0 w → heap w !! l = None →
  extends w0 (set_heap (insert l o) w).
Proof. intros. apply extends_insert; [done|]. by eapply extends_fresh. Qed.

Lemma wp_and {A} (m : M A) w (Q Q' : result A → world → Prop) :
  wp m w Q → wp m w Q' → wp m w (λ r w', Q r w' ∧ Q' r w').
Proof. unfold wp. auto. Qed.

Section Untouched.

Variable to_datetime : value → option datetime.
Variable pd_Timestamp : value → result datetime.

Lemma points_to_pdf_extends (points : list Point) w :
  wp (points_to_pdf to_datetime points) w (λ r w',
    extends w w'
    ∧ match r with
      | Ok df => heap w !! df = None ∧ is_Some (heap w' !! df)
      | Err _ => True
      end).
Proof.
  unfold points_to_pdf.
  apply wp_bind, wp_alloc. intros df Hdf.
  assert (Hext : ∀ d, extends w (set_heap (insert df (ODataFrame d)) w))
    by (intros d; apply extends_insert; [apply extends_refl|done]).
  apply wp_bind. eapply wp_df_getitem; [simpl; by rewrite lookup_insert_eq|].
  destruct (getitem _ _) as [ts|e]; [|done].
  apply wp_bind. eapply wp_df_setitem; [simpl; by rewrite lookup_insert_eq|].
  rewrite set_heap_twice.
  apply wp_bind. eapply wp_df_getitem; [simpl; by rewrite lookup_insert_eq|].
  destruct (getitem _ _) as [lat|e]; [|done].
  apply wp_bind, wp_lift.
  destruct (semicircle_to_degrees_series lat) as [lat_deg|e]; [|done].
  apply wp_bind. eapply wp_df_setitem; [simpl; by rewrite lookup_insert_eq|].
  rewrite set_heap_twice.
  apply wp_bind. eapply wp_df_getitem; [simpl; by rewrite lookup_insert_eq|].
  destruct (getitem _ _) as [long|e]; [|done].
  apply wp_bind, wp_lift.
  destruct (semicircle_to_degrees_series long) as [long_deg|e]; [|done].
  apply wp_bind. eapply wp_df_setitem; [simpl; by rewrite lookup_insert_eq|].
  rewrite set_heap_twice. apply wp_ret.
  split_and!; [done..|]. simpl. rewrite lookup_insert_eq. eauto.
Qed.

(** The first five statements of [pdf_to_gpx] change no object that was
    there. *)
Lemma wp_new_document_extends w (k : loc → loc → M loc) Q :
  (∀ gpx segment w',
     extends w w' → heap w !! gpx = None → heap w !! segment = None →
     heap w' !! segment = Some (OGPXTrackSegment []) →
     wp (k gpx segment) w' Q) →
  wp (do gpx <- alloc (OGPX []);
      do gpx_track <- alloc (OGPXTrack []);
      do_ tracks_append gpx gpx_track;
      do gpx_segment <- alloc (OGPXTrackSegment []);
      do_ segments_append gpx_track gpx_segment;
      k gpx gpx_segment) w Q.
Proof.
  intros Hk.
  apply wp_bind, wp_alloc. intros g Hg.
  apply wp_bind, wp_alloc. intros t Ht. simpl in Ht.
  apply lookup_insert_None in Ht as [Ht Hgt].
  apply wp_bind. eapply wp_tracks_append.
  { simpl. by rewrite lookup_insert_ne, lookup_insert_eq. }
  apply wp_bind, wp_alloc. intros s Hs. simpl in Hs.
  do 3 apply lookup_insert_None in Hs as [Hs ?].
  apply wp_bind. eapply wp_segments_append.
  { simpl. rewrite lookup_insert_ne, lookup_insert_ne, lookup_insert_eq; done. }
  apply (Hk g s); try done.
  - repeat (apply extends_insert; [|done]). apply extends_refl.
  - simpl. rewrite lookup_insert_ne, lookup_insert_eq; done.
Qed.

Lemma pdf_to_gpx_extends (df : loc) w :
  wp (pdf_to_gpx pd_Timestamp df) w (λ r w',
    extends w w'
    ∧ match r with
      | Ok gpx => heap w !! gpx = None
      | Err _ => True
      end).
Proof.
  unfold pdf_to_gpx. apply wp_new_document_extends.
  intros g s w1 Hext Hg Hs Hseg.
  apply wp_bind. unfold df_copy. apply wp_bind, wp_load_df.
  destruct (heap w1 !! df) as [[d| | |]|] eqn:Hdf; try done.
  apply wp_alloc. intros c Hc.
  apply wp_bind. unfold df_dropna. apply wp_bind, wp_load_df.
  simpl. rewrite lookup_insert_eq.
  apply wp_bind, wp_lift.
  destruct (dropna d required) as [d'|e];
    [|split; [by apply extends_alloc|done]].
  apply wp_alloc. intros c' Hc'.
  apply wp_bind. unfold iterrows. apply wp_bind, wp_load_df.
  simpl. rewrite lookup_insert_eq. apply wp_ret. simpl.
  apply wp_bind.
  eapply wp_mono;
    [|apply (wp_for_each _ _
               (λ _ w', extends w w'
                        ∧ ∃ pts, heap w' !! s = Some (OGPXTrackSegment pts))
               (λ _ w', extends w w'))].
  - intros [[]|e] w'; [|done]. intros (Hext' & _). by apply wp_ret.
  - split.
    + apply extends_alloc; [|done]. by apply extends_alloc.
    + exists []. simpl in *.
      apply lookup_insert_None in Hc' as [Hc' ?].
      rewrite !lookup_insert_ne; [done|congruence..].
  - intros seen row rest w' _ (Hext' & pts & Hpts).
    eapply wp_append_row_any; [done| |done].
    intros p. split; [by apply extends_insert|].
    exists (pts ++ [p]). simpl. by rewrite lookup_insert_eq.
Qed.

End Untouched.

Lemma segment_at_extends w w' l seg :
  extends w w' → segment_at (heap w) l = Some seg →
  segment_at (heap w') l = Some seg.
Proof.
  intros [H _ _ _]. unfold segment_at.
  destruct (heap w !! l) as [o|] eqn:Hl; [|done].
  by rewrite (H _ _ Hl).
Qed.

Lemma track_at_extends w w' l track :
  extends w w' → track_at (heap w) l = Some track →
  track_at (heap w') l = Some track.
Proof.
  intros Hext. pose proof Hext as [H _ _ _]. unfold track_at.
  destruct (heap w !! l) as [o|] eqn:Hl; [|done].
  rewrite (H _ _ Hl). destruct o as [|?|ss|]; try done.
  destruct (mapM (segment_at (heap w)) ss) as [segs|] eqn:Hm; [|done].
  intros <-. apply mapM_Some in Hm.
  assert (Hm' : mapM (segment_at (heap w')) ss = Some segs).
  { apply mapM_Some. eapply Forall2_impl; [done|].
    intros s seg. by apply segment_at_extends. }
  by rewrite Hm'.
Qed.

(** A document is read through objects that a later call leaves alone. *)
Lemma document_at_extends w w' l doc :
  extends w w' → document_at (heap w) l = Some doc →
  document_at (heap w') l = Some doc.
Proof.
  intros Hext. pose proof Hext as [H _ _ _]. unfold document_at.
  destruct (heap w !! l) as [o|] eqn:Hl; [|done].
  rewrite (H _ _ Hl). destruct o as [|ts| |]; try done.
  destruct (mapM (track_at (heap w)) ts) as [trs|] eqn:Hm; [|done].
  intros <-. apply mapM_Some in Hm.
  assert (Hm' : mapM (track_at (heap w')) ts = Some trs).
  { apply mapM_Some. eapply Forall2_impl; [done|].
    intros t track. by apply track_at_extends. }
  by rewrite Hm'.
Qed.

Lemma document_at_Some_heap (h : gmap loc object) l doc :
  document_at h l = Some doc → is_Some (h !! l).
Proof. unfold document_at. destruct (h !! l); [eauto|done]. Qed.

(** X5: however [pdf_to_gpx] ends and whatever it is given, every
    object that was there before the call is the same object after it, the
    files and the log are as they were, and a document that is returned is
    a new object. *)
Theorem pdf_to_gpx_changes_no_object pd_Timestamp (df : loc) (w : world) :
  ∃ r w',
    pdf_to_gpx pd_Timestamp df w = (r, w')
    ∧ (∀ l o, heap w !! l = Some o → heap w' !! l = Some o)
    ∧ files w' = files w ∧ readonly w' = readonly w ∧ log w' = log w
    ∧ (∀ gpx, r = Ok gpx → heap w !! gpx = None).
Proof.
  destruct (wp_run _ _ _ (pdf_to_gpx_extends pd_Timestamp df w))
    as (r & w' & Hrun & [Hheap Hfiles Hro Hlog] & Hnew).
  exists r, w'. split_and!; try done.
  by intros gpx ->.
Qed.

(** X6: two calls of [pdf_to_gpx] on the same normalized table return
    two different documents with the same points; the second call leaves
    the document of the first as it was. *)
Theorem pdf_to_gpx_twice pd_Timestamp (df : loc) (d : DataFrame)
    (w : world) :
  (∀ t, pd_Timestamp (VDatetime t) = Ok t) →
  heap w !! df = Some (ODataFrame d) →
  normalized d →
  ∃ gpx1 w1 gpx2 w2 doc,
    pdf_to_gpx pd_Timestamp df w = (Ok gpx1, w1)
    ∧ pdf_to_gpx pd_Timestamp df w1 = (Ok gpx2, w2)
    ∧ gpx1 ≠ gpx2
    ∧ doc = mkGPX [mkTrack [mkSegment (omap output_point (rows d))]]
    ∧ document_at (heap w1) gpx1 = Some doc
    ∧ document_at (heap w2) gpx1 = Some doc
    ∧ document_at (heap w2) gpx2 = Some doc.
Proof.
  intros Hts Hdf Hnorm.
  destruct (wp_run _ _ _ (pdf_to_gpx_document pd_Timestamp Hts df d w
                            Hdf Hnorm))
    as (r1 & w1 & Hrun1 & gpx1 & -> & Hdoc1 & Hdf1 & _).
  destruct (wp_run _ _ _
              (wp_and _ _ _ _
                 (pdf_to_gpx_document pd_Timestamp Hts df d w1 Hdf1 Hnorm)
                 (pdf_to_gpx_extends pd_Timestamp df w1)))
    as (r2 & w2 & Hrun2 & (gpx2 & -> & Hdoc2 & _) & Hext & Hnew).
  exists gpx1, w1, gpx2, w2. eexists. split_and!; try done.
  - intros ->. apply document_at_Some_heap in Hdoc1 as [o Ho]. congruence.
  - by eapply document_at_extends.
Qed.

(** X7: on a table that lacks one of the columns "latitude",
    "longitude" and "timestamp", [pdf_to_gpx] raises the [KeyError] of
    [dropna], which carries the labels that are missing in the order of
    the subset; the table and the files are left as they were. *)
Theorem pdf_to_gpx_missing_column pd_Timestamp (df : loc) (d : DataFrame)
    (key : string) (w : world) :
  heap w !! df = Some (ODataFrame d) →
  key ∈ required →
  key ∉ columns d →
  ∃ missing w',
    pdf_to_gpx pd_Timestamp df w = (Err (KeyError missing), w')
    ∧ missing = filter (λ key, key ∉ columns d) required
    ∧ key ∈ missing
    ∧ heap w' !! df = Some (ODataFrame d)
    ∧ files w' = files w.
Proof.
  intros Hdf Hreq Hcol.
  assert (Hin : key ∈ filter (λ key, key ∉ columns d) required)
    by (by apply list_elem_of_filter).
  enough (Hwp : wp (pdf_to_gpx pd_Timestamp df) w (λ r w',
            r = Err (KeyError (filter (λ key, key ∉ columns d) required))
            ∧ heap w' !! df = Some (ODataFrame d) ∧ files w' = files w)).
  { destruct (wp_run _ _ _ Hwp) as (r & w' & Hrun & -> & Hdf' & Hfiles).
    eexists; by exists w'. }
  unfold pdf_to_gpx.
  apply (wp_new_document df (ODataFrame d)); [done|].
  intros g t s w1 Hinv Hne.
  apply wp_bind. unfold df_copy. apply wp_bind, wp_load_df.
  rewrite (inv_df _ _ _ _ _ _ _ _ Hinv).
  apply wp_alloc. intros c Hc.
  apply (doc_inv_alloc _ _ _ _ _ _ _ _ c (ODataFrame d)) in Hinv; [|done].
  apply wp_bind. unfold df_dropna. apply wp_bind, wp_load_df.
  simpl. rewrite lookup_insert_eq.
  apply wp_bind, wp_lift. unfold dropna.
  destruct (filter (λ key, key ∉ columns d) required) as [|k l] eqn:Hf.
  { by apply elem_of_nil in Hin. }
  split_and!; [done|apply Hinv..].
Qed.

(** ** The table functions in sequence, and [main] *)

Lemma fit_position_numeric (points : list Point) :
  Forall fit_position points → Forall numeric_position points.
Proof.
  intros Hfit. eapply Forall_impl; [done|]. intros p [Hla Hlo].
  split; [by destruct (position_lat p)|by destruct (position_long p)].
Qed.

Section Coverage.

Variable fitparse_FitFile : string → result (list event).
Variable to_datetime : value → option datetime.
Variable pd_Timestamp : value → result datetime.
Variable to_xml : GPX → string.
Variable parse_args : list string → result (option string * option string).

Hypothesis pd_Timestamp_datetime : ∀ t, pd_Timestamp (VDatetime t) = Ok t.

Lemma table_row_normalize p :
  table_row to_datetime p (normalize to_datetime (asdict p)).
Proof. repeat split; reflexivity. Qed.

(** X8: on a list that is not empty and whose positions are signed
    32-bit integers or missing, [points_to_pdf] returns a new table with
    the nine fields and then "latitude" and "longitude" as columns, and
    one row per record, in order; the row of a record has, under
    "timestamp", the date-time read in the record's timestamp or a null,
    and under "latitude" and "longitude" the degrees of its two positions,
    or a null where the position is missing.  No object that was there has
    changed. *)
Theorem points_to_pdf_table_rows (points : list Point) (w : world) :
  points ≠ [] →
  Forall fit_position points →
  ∃ df w' d,
    points_to_pdf to_datetime points w = (Ok df, w')
    ∧ heap w !! df = None
    ∧ heap w' !! df = Some (ODataFrame d)
    ∧ (∀ l o, heap w !! l = Some o → heap w' !! l = Some o)
    ∧ columns d = Point_fields ++ ["latitude"; "longitude"]%string
    ∧ Forall2 (table_row to_datetime) points (rows d).
Proof.
  intros Hne Hfit.
  pose proof (fit_position_numeric points Hfit) as Hnum.
  destruct (wp_run _ _ _ (points_to_pdf_table to_datetime points w Hne Hnum))
    as (r & w' & Hrun & df & -> & Hfresh & ->).
  exists df. eexists. exists (normalized_table to_datetime points).
  split_and!; try done.
  - simpl. by rewrite lookup_insert_eq.
  - intros l o Hl. simpl. rewrite lookup_insert_ne; [done|congruence].
  - simpl. clear. induction points as [|p points IH]; [constructor|].
    rewrite fmap_cons. constructor; [apply table_row_normalize|done].
Qed.

Lemma degrees_fit_semicircles v :
  fit_semicircles v →
  isna (degrees v) = match v with VInt _ => false | _ => true end.
Proof.
  destruct v as [|n|x|s|t]; try done. intros Hn. unfold degrees. simpl.
  apply semicircle_to_degrees_not_nan. simpl in Hn.
  change (2 ^ 31) with 2147483648 in Hn.
  change (2 ^ 47) with 140737488355328. lia.
Qed.

Lemma track_point_fit p :
  fit_position p → track_point to_datetime p = gpx_point to_datetime p.
Proof.
  intros [Hla Hlo]. unfold gpx_point.
  destruct (to_datetime (timestamp p)) as [t|] eqn:Hts.
  2:{ rewrite track_point_None_timestamp by done.
      by destruct (position_lat p), (position_long p). }
  pose proof (degrees_fit_semicircles _ Hla) as Hdla.
  pose proof (degrees_fit_semicircles _ Hlo) as Hdlo.
  destruct (position_lat p) as [|la| | |] eqn:Ela; try done.
  - unfold track_point. rewrite output_point_None; [done|].
    rewrite survives_iff.
    destruct (normalize_cells to_datetime (asdict p)) as (_ & -> & _).
    destruct (asdict_cells p) as (_ & -> & _). rewrite Ela.
    by intros (? & _).
  - destruct (position_long p) as [|lo| | |] eqn:Elo; try done.
    + unfold track_point. rewrite output_point_None; [done|].
      rewrite survives_iff.
      destruct (normalize_cells to_datetime (asdict p)) as (_ & _ & ->).
      destruct (asdict_cells p) as (_ & _ & ->). rewrite Elo.
      by intros (_ & ? & _).
    + simpl in Hla, Hlo. apply track_point_int; try done; lia.
Qed.

(** X9: for a list of records that is not empty and whose positions are
    signed 32-bit integers or missing, [points_to_pdf] followed by
    [pdf_to_gpx] gives the document whose points are, in order, those of
    the records that have both positions and a timestamp that is read,
    each with the degrees of the two positions and that date-time; a
    record without a position or without a readable timestamp gives no
    point.  On the empty list there is no document: [points_to_pdf]
    raises [KeyError]. *)
Theorem fit_points_to_gpx (points : list Point) (w : world) :
  Forall fit_position points →
  match points with
  | [] =>
      ∃ w1, points_to_pdf to_datetime points w
            = (Err (KeyError ["timestamp"%string]), w1)
  | _ :: _ =>
      ∃ df w1 gpx w2,
        points_to_pdf to_datetime points w = (Ok df, w1)
        ∧ pdf_to_gpx pd_Timestamp df w1 = (Ok gpx, w2)
        ∧ document_at (heap w2) gpx
          = Some (mkGPX [mkTrack [mkSegment
                                    (omap (gpx_point to_datetime) points)]])
  end.
Proof.
  intros Hfit. destruct points as [|p0 points'] eqn:Hpoints.
  { destruct (wp_run _ _ _ (points_to_pdf_empty to_datetime w))
      as (r & w1 & Hrun & -> & _).
    by exists w1. }
  rewrite <- Hpoints in *.
  assert (Hne : points ≠ []) by (by rewrite Hpoints).
  clear Hpoints p0 points'.
  pose proof (fit_position_numeric points Hfit) as Hnum.
  destruct (points_to_gpx to_datetime pd_Timestamp pd_Timestamp_datetime
              points w Hne Hnum)
    as (df & w1 & gpx & w2 & Hrun1 & _ & Hrun2 & Hdoc & _).
  exists df, w1, gpx, w2. split_and!; try done.
  enough (Heq : omap (track_point to_datetime) points
                = omap (gpx_point to_datetime) points) by (by rewrite <- Heq).
  clear -Hfit. induction Hfit as [|p points Hp _ IH]; [done|].
  by rewrite !omap_cons_eq, IH, track_point_fit.
Qed.

(** [main] up to the opening of the output file. *)
Lemma main_conversion (args : list string) (path data : string)
    (out : option string) (records : list event) (w : world) :
  parse_args args = Ok (Some path, out) →
  files w !! path = Some data →
  fitparse_FitFile data = Ok records →
  omap accepted records ≠ [] →
  Forall numeric_position (omap accepted records) →
  ∃ gpx w2,
    main fitparse_FitFile to_datetime pd_Timestamp to_xml parse_args args w
    = (do f <- open_w out; do xml <- gpx_to_xml to_xml gpx; write f xml) w2
    ∧ document_at (heap w2) gpx
      = Some (mkGPX [mkTrack [mkSegment
           (omap (track_point to_datetime) (omap accepted records))]])
    ∧ files w2 = files w
    ∧ readonly w2 = readonly w
    ∧ log w2 = log w ++ read_log records.
Proof.
  intros Hargs Hfile Hopen Hne Hnum.
  destruct (points_to_gpx to_datetime pd_Timestamp pd_Timestamp_datetime
              (omap accepted records) (add_log (read_log records) w)
              Hne Hnum)
    as (df & w1 & gpx & w2 & Hrun1 & _ & Hrun2 & Hdoc & Hfiles & Hlog).
  pose proof (points_to_pdf_extends to_datetime (omap accepted records)
                (add_log (read_log records) w)) as Hext1.
  unfold wp in Hext1. rewrite Hrun1 in Hext1. simpl in Hext1.
  destruct Hext1 as [Hext1 _].
  pose proof (pdf_to_gpx_extends pd_Timestamp df w1) as Hext2.
  unfold wp in Hext2. rewrite Hrun2 in Hext2. simpl in Hext2.
  destruct Hext2 as [Hext2 _].
  exists gpx, w2. split_and!; try done.
  - unfold main. unfold bind at 1, lift. rewrite Hargs.
    unfold bind at 1, setup_logging, ret.
    unfold bind at 1. simpl fst.
    rewrite (read_fit_file_run _ _ data records) by done.
    unfold bind at 1. rewrite Hrun1.
    unfold bind at 1. by rewrite Hrun2.
  - by rewrite (ext_readonly _ _ Hext2), (ext_readonly _ _ Hext1).
Qed.

(** X10: when the container opens, at least one record is accepted, the
    positions are numbers or nulls and the output path can be written,
    [main] returns normally; the output file then holds the XML of the
    document of the accepted records, no other file has changed (the input
    file is overwritten when it is also the output path), and the log has
    the lines of the extractor. *)
Theorem main_writes_document (args : list string) (path out data : string)
    (records : list event) (w : world) :
  parse_args args = Ok (Some path, Some out) →
  files w !! path = Some data →
  fitparse_FitFile data = Ok records →
  omap accepted records ≠ [] →
  Forall numeric_position (omap accepted records) →
  out ∉ readonly w →
  ∃ w',
    main fitparse_FitFile to_datetime pd_Timestamp to_xml parse_args args w
    = (Ok tt, w')
    ∧ files w'
      = <[out := to_xml (mkGPX [mkTrack [mkSegment
           (omap (track_point to_datetime) (omap accepted records))]])]>
          (files w)
    ∧ log w' = log w ++ read_log records.
Proof.
  intros Hargs Hfile Hopen Hne Hnum Hout.
  destruct (main_conversion args path data (Some out) records w)
    as (gpx & w2 & -> & Hdoc & Hfiles & Hro & Hlog); try done.
  unfold bind, open_w. rewrite decide_False by (by rewrite Hro).
  unfold gpx_to_xml. simpl. rewrite Hdoc. simpl.
  eexists. split_and!; [done| |done].
  simpl. by rewrite insert_insert_eq, Hfiles.
Qed.

(** X11: when [open] refuses the output path (no path was given, or it
    cannot be written), [main] raises the exception of [open] after the
    whole conversion: the log has the lines of the extractor and no file
    has changed. *)
Theorem main_output_open_error (args : list string) (path data : string)
    (out : option string) (records : list event) (e : exn) (w : world) :
  parse_args args = Ok (Some path, out) →
  files w !! path = Some data →
  fitparse_FitFile data = Ok records →
  omap accepted records ≠ [] →
  Forall numeric_position (omap accepted records) →
  (open_w out w).1 = Err e →
  ∃ w',
    main fitparse_FitFile to_datetime pd_Timestamp to_xml parse_args args w
    = (Err e, w')
    ∧ files w' = files w
    ∧ log w' = log w ++ read_log records.
Proof.
  intros Hargs Hfile Hopen Hne Hnum Hout.
  destruct (main_conversion args path data out records w)
    as (gpx & w2 & -> & Hdoc & Hfiles & Hro & Hlog); try done.
  exists w2. split_and!; try done.
  unfold bind, open_w in *. destruct out as [p|]; [|simpl in *; congruence].
  rewrite Hro. destruct (decide (p ∈ readonly w)); simpl in *; congruence.
Qed.

(** X12: on a container that opens and none of whose stream outcomes
    gives a point, however many there are, [main] logs one line per
    outcome and the closing line, then ends in the [KeyError] of the
    normalizer, and writes no file. *)
Theorem main_no_point (args : list string) (path data : string)
    (out : option string) (records : list event) (w : world) :
  parse_args args = Ok (Some path, out) →
  files w !! path = Some data →
  fitparse_FitFile data = Ok records →
  Forall (λ ev, accepted ev = None) records →
  ∃ w',
    main fitparse_FitFile to_datetime pd_Timestamp to_xml parse_args args w
    = (Err (KeyError ["timestamp"%string]), w')
    ∧ files w' = files w
    ∧ log w'
      = log w
        ++ replicate (length records) "Error in record, continuing"%string
        ++ ["Read all records in FIT file."%string].
Proof.
  intros Hargs Hfile Hopen Hnone.
  apply omap_accepted_none in Hnone as [Hnil Hlog].
  enough (Hwp : wp (main fitparse_FitFile to_datetime pd_Timestamp to_xml
                      parse_args args) w
                  (λ r w', r = Err (KeyError ["timestamp"%string])
                           ∧ files w' = files w
                           ∧ log w' = log w ++ read_log records)).
  { destruct (wp_run _ _ _ Hwp) as (r & w' & Hrun & -> & Hfiles & Hlog').
    exists w'. by rewrite <- Hlog. }
  unfold main. apply wp_bind, wp_lift. rewrite Hargs.
  apply wp_bind, wp_ret, wp_bind. unfold wp at 1. simpl fst.
  rewrite (read_fit_file_run _ _ data records) by done. simpl.
  rewrite Hnil.
  apply wp_bind. eapply wp_mono; [|apply points_to_pdf_empty].
  intros r w' (-> & Hfiles & Hlog'). done.
Qed.

Lemma read_fit_file_frame (fit : option string) w :
  wp (read_fit_file fitparse_FitFile fit) w (λ _ w',
    heap w' = heap w ∧ files w' = files w ∧ readonly w' = readonly w).
Proof.
  unfold wp, read_fit_file, bind, FitFile.
  destruct fit as [path|]; [|done].
  destruct (files w !! path) as [data|]; [|done].
  destruct (fitparse_FitFile data) as [records|e]; [|done].
  by rewrite read_records_run.
Qed.

(** X13: however [main] ends, every path other than the output path
    of the command line holds what it held before; when the command line
    is refused, nothing at all has changed. *)
Theorem main_writes_only_output (args : list string) (w : world) :
  ∃ r w',
    main fitparse_FitFile to_datetime pd_Timestamp to_xml parse_args args w
    = (r, w')
    ∧ readonly w' = readonly w
    ∧ match parse_args args with
      | Ok (_, out) => ∀ p, out ≠ Some p → files w' !! p = files w !! p
      | Err e => r = Err e ∧ w' = w
      end.
Proof.
  enough (Hwp : wp (main fitparse_FitFile to_datetime pd_Timestamp to_xml
                      parse_args args) w
                  (λ r w', readonly w' = readonly w
                    ∧ match parse_args args with
                      | Ok (_, out) =>
                          ∀ p, out ≠ Some p → files w' !! p = files w !! p
                      | Err e => r = Err e ∧ w' = w
                      end)).
  { destruct (wp_run _ _ _ Hwp) as (r & w' & Hrun & Hro & Hfiles).
    by exists r, w'. }
  unfold main. apply wp_bind, wp_lift.
  destruct (parse_args args) as [[fit out]|e]; [|done].
  apply wp_bind, wp_ret, wp_bind. simpl fst. simpl snd.
  eapply wp_mono; [|apply read_fit_file_frame].
  intros r0 w0 (_ & Hf0 & Hr0).
  destruct r0 as [points|e]; [|split; [done|intros; by rewrite Hf0]].
  apply wp_bind. eapply wp_mono; [|apply points_to_pdf_extends].
  intros r1 w1 ([_ Hf1 Hr1 _] & _).
  destruct r1 as [df|e]; [|split; [|intros]; congruence].
  apply wp_bind. eapply wp_mono; [|apply pdf_to_gpx_extends].
  intros r2 w2 ([_ Hf2 Hr2 _] & _).
  destruct r2 as [gpx|e]; [|split; [|intros]; congruence].
  unfold wp, bind, open_w, gpx_to_xml, write.
  destruct out as [p0|]; [|split; [|intros]; simpl; congruence].
  destruct (decide (p0 ∈ readonly w2));
    [split; [|intros]; simpl; congruence|].
  simpl. destruct (document_at (heap w2) gpx); simpl.
  - split; [congruence|]. intros p Hp.
    rewrite !lookup_insert_ne by congruence. congruence.
  - split; [congruence|]. intros p Hp.
    rewrite !lookup_insert_ne by congruence. congruence.
Qed.

End Coverage.

(** ** The normalizer on any list *)

Lemma semicircle_to_degrees_series_Err (col : list value) e :
  semicircle_to_degrees_series col = Err e → e = TypeError.
Proof.
  induction col as [|v col IH]; simpl; [done|].
  destruct (semicircle_to_degrees_cell v) eqn:Hv.
  - destruct (semicircle_to_degrees_series col); [done|].
    intros [= <-]. by apply IH.
  - intros [= <-]. destruct v; simpl in Hv; congruence.
Qed.

Lemma column_of_points (points : list Point) f key (proj : Point → value) :
  (∀ p, cell (f (asdict p)) key = proj p) →
  (λ r, cell r key) <$> (f <$> (asdict <$> points)) = proj <$> points.
Proof.
  intros Hcell. rewrite <- !list_fmap_compose.
  apply list_fmap_ext. intros _ p _. simpl. apply Hcell.
Qed.

Section NormalizerErrors.

Variable to_datetime : value → option datetime.

(** With a position that is neither a number nor a null, one of the two
    divisions raises. *)
Lemma points_to_pdf_type_error (points : list Point) w :
  points ≠ [] →
  ¬ Forall numeric_position points →
  wp (points_to_pdf to_datetime points) w (λ r _, r = Err TypeError).
Proof.
  intros Hne Hnum. unfold points_to_pdf.
  apply wp_bind, wp_alloc. intros df Hdf.
  assert (Hd0 : pd_DataFrame points
                = mkDataFrame Point_fields (asdict <$> points))
    by (by destruct points).
  rewrite Hd0. clear Hd0.
  set (d0 := mkDataFrame Point_fields (asdict <$> points)).
  apply wp_bind. eapply wp_df_getitem; [simpl; by rewrite lookup_insert_eq|].
  rewrite getitem_column by field_name.
  apply wp_bind. eapply wp_df_setitem; [simpl; by rewrite lookup_insert_eq|].
  rewrite set_heap_twice.
  fold (assign "timestamp" "timestamp" (to_datetime_coerce to_datetime) d0).
  set (d1 := assign "timestamp" "timestamp" _ d0).
  apply wp_bind. eapply wp_df_getitem; [simpl; by rewrite lookup_insert_eq|].
  rewrite getitem_column by field_name.
  apply wp_bind, wp_lift.
  destruct (semicircle_to_degrees_series _) as [lat_deg|e] eqn:Hlat;
    [|by apply semicircle_to_degrees_series_Err in Hlat as ->].
  apply semicircle_to_degrees_series_Ok in Hlat as [Hnlat ->].
  apply wp_bind. eapply wp_df_setitem; [simpl; by rewrite lookup_insert_eq|].
  rewrite set_heap_twice.
  fold (assign "latitude" "position_lat" degrees d1).
  set (d2 := assign "latitude" "position_lat" _ d1).
  apply wp_bind. eapply wp_df_getitem; [simpl; by rewrite lookup_insert_eq|].
  rewrite getitem_column by field_name.
  apply wp_bind, wp_lift.
  destruct (semicircle_to_degrees_series _) as [long_deg|e] eqn:Hlong;
    [|by apply semicircle_to_degrees_series_Err in Hlong as ->].
  apply semicircle_to_degrees_series_Ok in Hlong as [Hnlong _].
  exfalso. apply Hnum.
  subst d1. rewrite rows_assign in Hnlat. simpl in Hnlat.
  rewrite (column_of_points _ _ _ position_lat) in Hnlat by done.
  subst d2. rewrite !rows_assign in Hnlong. simpl in Hnlong.
  rewrite <- (list_fmap_compose _ _ (asdict <$> points)) in Hnlong.
  rewrite (column_of_points _ _ _ position_long) in Hnlong by done.
  rewrite Forall_fmap, Forall_forall in Hnlat, Hnlong.
  apply Forall_forall. intros p Hp.
  split; [by apply Hnlat|by apply Hnlong].
Qed.

(** X14: the outcomes of [points_to_pdf] on a list whose integer
    positions are of the 64-bit range.  On the empty list it raises
    [KeyError]; on a list that is not empty it returns a table when all
    positions are numbers or nulls, and raises [TypeError] when some
    position is a string or a date-time.  In each case the objects that
    were there, the files and the log are left as they were.  (An integer
    too large for a float is outside this statement: there Python raises
    [OverflowError].) *)
Theorem points_to_pdf_outcome (points : list Point) (w : world) :
  Forall int64_position points →
  ∃ r w',
    points_to_pdf to_datetime points w = (r, w')
    ∧ (points = [] → r = Err (KeyError ["timestamp"%string]))
    ∧ (points ≠ [] → Forall numeric_position points → ∃ df, r = Ok df)
    ∧ (points ≠ [] → ¬ Forall numeric_position points → r = Err TypeError)
    ∧ (∀ l o, heap w !! l = Some o → heap w' !! l = Some o)
    ∧ files w' = files w ∧ log w' = log w.
Proof.
  intros _.
  destruct (wp_run _ _ _ (points_to_pdf_extends to_datetime points w))
    as (r & w' & Hrun & [Hheap Hfiles _ Hlog] & _).
  exists r, w'. split_and!; try done.
  - intros ->.
    pose proof (points_to_pdf_empty to_datetime w) as Hwp.
    unfold wp in Hwp. rewrite Hrun in Hwp. simpl in Hwp.
    by destruct Hwp as [-> _].
  - intros Hne Hnum.
    pose proof (points_to_pdf_table to_datetime points w Hne Hnum) as Hwp.
    unfold wp in Hwp. rewrite Hrun in Hwp. simpl in Hwp.
    destruct Hwp as (df & -> & _). eauto.
  - intros Hne Hnum.
    pose proof (points_to_pdf_type_error points w Hne Hnum) as Hwp.
    unfold wp in Hwp. by rewrite Hrun in Hwp.
Qed.

End NormalizerErrors.

(** * The further properties on the small ride *)

Lemma semicircle_to_degrees_order_ride :
  PrimFloat.ltb (semicircle_to_degrees (-1193046))
    (semicircle_to_degrees 612553967)
  = (-1193046 <? 612553967)
  ∧ PrimFloat.leb (semicircle_to_degrees (-1193046))
      (semicircle_to_degrees 612553967)
    = (-1193046 <=? 612553967)
  ∧ PrimFloat.eqb (semicircle_to_degrees (-1193046))
      (semicircle_to_degrees 612553967)
    = (-1193046 =? 612553967)
  ∧ (semicircle_to_degrees (-1193046) = semicircle_to_degrees 612553967 →
     -1193046 = 612553967).
Proof.
  apply (semicircle_to_degrees_order (-1193046) 612553967); simpl; lia.
Defined.

Lemma semicircle_to_degrees_bounds_ride :
  PrimFloat.leb (-180)%float (semicircle_to_degrees 612553967) = true
  ∧ PrimFloat.leb (semicircle_to_degrees 612553967) 180%float = true.
Proof. apply (semicircle_to_degrees_bounds 612553967). simpl. lia. Defined.

Lemma semicircle_to_degrees_odd_ride :
  PrimFloat.eqb (semicircle_to_degrees (- 612553967))
    (- semicircle_to_degrees 612553967)%float = true
  ∧ (612553967 ≠ 0 →
     semicircle_to_degrees (- 612553967)
     = (- semicircle_to_degrees 612553967)%float).
Proof. apply (semicircle_to_degrees_odd 612553967). simpl. lia. Defined.

Lemma read_fit_file_log_ride :
  ∃ points w',
    read_fit_file ride_fitparse (Some "ride.fit"%string) ride_world
    = (Ok points, w')
    ∧ log w'
      = log ride_world
        ++ replicate (length ride_stream - length points)
             "Error in record, continuing"%string
        ++ ["Read all records in FIT file."%string]
    ∧ readonly w' = readonly ride_world.
Proof.
  apply (read_fit_file_log ride_fitparse "ride.fit" "ride"); reflexivity.
Defined.

Lemma main_no_point_corrupt :
  ∃ w',
    main corrupt_fitparse ride_to_datetime ride_Timestamp ride_to_xml
      ride_parse_args ["ride.fit"; "out.gpx"]%string ride_world
    = (Err (KeyError ["timestamp"%string]), w')
    ∧ files w' = files ride_world
    ∧ log w'
      = log ride_world
        ++ replicate (length [Yield message_B; Raise FitParseError])
             "Error in record, continuing"%string
        ++ ["Read all records in FIT file."%string].
Proof.
  apply (main_no_point corrupt_fitparse ride_to_datetime ride_Timestamp
           ride_to_xml ride_parse_args _ "ride.fit" "ride"%string
           (Some "out.gpx"%string)).
  - reflexivity.
  - reflexivity.
  - reflexivity.
  - repeat constructor.
Defined.

Lemma pdf_to_gpx_twice_ride :
  ∃ gpx1 w1 gpx2 w2 doc,
    pdf_to_gpx ride_Timestamp 1%positive table_world = (Ok gpx1, w1)
    ∧ pdf_to_gpx ride_Timestamp 1%positive w1 = (Ok gpx2, w2)
    ∧ gpx1 ≠ gpx2
    ∧ doc = mkGPX [mkTrack [mkSegment (omap output_point (rows ride_table))]]
    ∧ document_at (heap w1) gpx1 = Some doc
    ∧ document_at (heap w2) gpx1 = Some doc
    ∧ document_at (heap w2) gpx2 = Some doc.
Proof.
  apply (pdf_to_gpx_twice ride_Timestamp).
  - reflexivity.
  - reflexivity.
  - split; [by apply (bool_decide_unpack _)|repeat constructor].
Defined.

Lemma pdf_to_gpx_missing_column_bare :
  ∃ missing w',
    pdf_to_gpx ride_Timestamp 1%positive bare_world
    = (Err (KeyError missing), w')
    ∧ missing
      = filter (λ key, key ∉ columns (pd_DataFrame [])) required
    ∧ "latitude"%string ∈ missing
    ∧ heap w' !! 1%positive = Some (ODataFrame (pd_DataFrame []))
    ∧ files w' = files bare_world.
Proof.
  apply (pdf_to_gpx_missing_column ride_Timestamp).
  - reflexivity.
  - by apply (bool_decide_unpack _).
  - by apply (bool_decide_unpack _).
Defined.

Lemma points_to_pdf_table_rows_ride :
  ∃ df w' d,
    points_to_pdf ride_to_datetime [record_A; record_C] ride_world
    = (Ok df, w')
    ∧ heap ride_world !! df = None
    ∧ heap w' !! df = Some (ODataFrame d)
    ∧ (∀ l o, heap ride_world !! l = Some o → heap w' !! l = Some o)
    ∧ columns d = Point_fields ++ ["latitude"; "longitude"]%string
    ∧ Forall2 (table_row ride_to_datetime) [record_A; record_C] (rows d).
Proof.
  apply (points_to_pdf_table_rows ride_to_datetime).
  - done.
  - repeat constructor; simpl; lia.
Defined.

Lemma fit_points_to_gpx_ride :
  ∃ df w1 gpx w2,
    points_to_pdf ride_to_datetime [record_A; record_C] ride_world
    = (Ok df, w1)
    ∧ pdf_to_gpx ride_Timestamp df w1 = (Ok gpx, w2)
    ∧ document_at (heap w2) gpx
      = Some (mkGPX [mkTrack [mkSegment
                (omap (gpx_point ride_to_datetime) [record_A; record_C])]]).
Proof.
  apply (fit_points_to_gpx ride_to_datetime ride_Timestamp (λ t, eq_refl)
           [record_A; record_C] ride_world).
  repeat constructor; simpl; lia.
Defined.

Lemma main_writes_document_ride :
  ∃ w',
    main ride_fitparse ride_to_datetime ride_Timestamp ride_to_xml
      ride_parse_args ["ride.fit"; "out.gpx"]%string ride_world
    = (Ok tt, w')
    ∧ files w'
      = <["out.gpx"%string := ride_to_xml (mkGPX [mkTrack [mkSegment
           (omap (track_point ride_to_datetime)
              (omap accepted ride_stream))]])]>
          (files ride_world)
    ∧ log w' = log ride_world ++ read_log ride_stream.
Proof.
  apply (main_writes_document ride_fitparse ride_to_datetime ride_Timestamp
           ride_to_xml ride_parse_args (λ t, eq_refl) _ "ride.fit" "out.gpx"
           "ride"%string).
  - reflexivity.
  - reflexivity.
  - reflexivity.
  - vm_compute. discriminate.
  - vm_compute. repeat constructor.
  - apply not_elem_of_empty.
Defined.

Lemma main_output_open_error_ride :
  ∃ w',
    main ride_fitparse ride_to_datetime ride_Timestamp ride_to_xml
      fit_only_parse_args ["ride.fit"]%string ride_world
    = (Err TypeError, w')
    ∧ files w' = files ride_world
    ∧ log w' = log ride_world ++ read_log ride_stream.
Proof.
  apply (main_output_open_error ride_fitparse ride_to_datetime ride_Timestamp
           ride_to_xml fit_only_parse_args (λ t, eq_refl) _ "ride.fit"
           "ride"%string None).
  - reflexivity.
  - reflexivity.
  - reflexivity.
  - vm_compute. discriminate.
  - vm_compute. repeat constructor.
  - reflexivity.
Defined.

Lemma points_to_pdf_outcome_ride :
  ∃ r w',
    points_to_pdf ride_to_datetime [record_A; record_C] ride_world = (r, w')
    ∧ ([record_A; record_C] = [] → r = Err (KeyError ["timestamp"%string]))
    ∧ ([record_A; record_C] ≠ [] →
       Forall numeric_position [record_A; record_C] → ∃ df, r = Ok df)
    ∧ ([record_A; record_C] ≠ [] →
       ¬ Forall numeric_position [record_A; record_C] → r = Err TypeError)
    ∧ (∀ l o, heap ride_world !! l = Some o → heap w' !! l = Some o)
    ∧ files w' = files ride_world ∧ log w' = log ride_world.
Proof.
  apply (points_to_pdf_outcome ride_to_datetime [record_A; record_C]
           ride_world).
  repeat constructor; simpl; lia.
Defined.
